(** * Bulk-messaging relay: the [/send] handler of [index.js]

    [src/index.js] holds three versions of the same Express handler
    [app.post("/send", ...)].  The first two (lines 65-187 and 289-394) have
    the same logic: a readiness guard, send-time media checks and a scratch
    file under [uploads/].  The third (lines 454-552) is the simpler one: no
    readiness guard, a fixed footer appended to the message, the media kept
    in memory and sent without checks.  They are told apart below by
    [variant].

    The development is a shallow embedding: JavaScript strings are lists of
    UTF-16 code units, the collaborators ([client], [fs], [io], the timer)
    are recorded as a trace of actions whose results come from a script of
    answers, and [try]/[catch]/[continue] are abrupt completions of a small
    monad. *)

From Stdlib Require Import ZArith List Bool Lia String Ascii.
From stdpp Require Import base decidable list gmap.

Set Default Proof Using "Type".
#[local] Set Warnings "-clear-no-such-hyp".
Local Open Scope N_scope.

(** ** JavaScript strings *)

(** A string is its sequence of UTF-16 code units. *)
Abbreviation jsstring := (list N).

(** An ASCII literal of the source. *)
Definition lit (s : string) : jsstring :=
  List.map N_of_ascii (list_ascii_of_string s).

Module Js.

(** [\d]: the code units of "0" .. "9". *)
Definition isDigit (c : N) : bool := (48 <=? c) && (c <=? 57).

(** What [String.prototype.trim] removes: WhiteSpace and LineTerminator of
    ECMAScript (TAB, VT, FF, SP, NBSP, ZWNBSP, the Zs category, LF, CR, LS,
    PS). *)
Definition isWhiteSpace (c : N) : bool :=
  ((9 <=? c) && (c <=? 13)) || (c =? 32) || (c =? 160) || (c =? 5760)
  || ((8192 <=? c) && (c <=? 8202)) || (c =? 8232) || (c =? 8233)
  || (c =? 8239) || (c =? 8287) || (c =? 12288) || (c =? 65279).

Fixpoint dropWhile (p : N -> bool) (s : jsstring) : jsstring :=
  match s with
  | [] => []
  | c :: r => if p c then dropWhile p r else s
  end.

Fixpoint takeWhile (p : N -> bool) (s : jsstring) : jsstring :=
  match s with
  | [] => []
  | c :: r => if p c then c :: takeWhile p r else []
  end.

(** [s.trim()] *)
Definition trim (s : jsstring) : jsstring :=
  rev (dropWhile isWhiteSpace (rev (dropWhile isWhiteSpace s))).

(** Truthiness of a string: the empty string is the only falsy one. *)
Definition truthy (s : jsstring) : bool :=
  match s with [] => false | _ => true end.

(** [s.startsWith(p)] *)
Fixpoint startsWith (p s : jsstring) : bool :=
  match p, s with
  | [], _ => true
  | _ :: _, [] => false
  | a :: p', b :: s' => (a =? b) && startsWith p' s'
  end.

(** [s.slice(-k)]: the last [k] code units, the whole string when it is
    shorter. *)
Definition sliceLast (k : nat) (s : jsstring) : jsstring :=
  skipn (length s - k) s.

(** [s.replace(/\D/g, "")] *)
Definition stripNonDigits (s : jsstring) : jsstring :=
  List.filter isDigit s.

(** [s.replace("+", "")]: only the first occurrence goes. *)
Fixpoint removeFirst (x : N) (s : jsstring) : jsstring :=
  match s with
  | [] => []
  | c :: r => if c =? x then r else c :: removeFirst x r
  end.

(** [s.split(",")]: never empty, ["".split(",")] is [[""]]. *)
Fixpoint split (sep : N) (s : jsstring) : list jsstring :=
  match s with
  | [] => [[]]
  | c :: r =>
      if c =? sep then [] :: split sep r
      else match split sep r with
           | [] => [[c]]
           | p :: ps => (c :: p) :: ps
           end
  end.

(** [/^\d+$/.test(s)] *)
Definition allDigits (s : jsstring) : bool :=
  truthy s && forallb isDigit s.

Definition mem (x : jsstring) (l : list jsstring) : bool :=
  bool_decide (x ∈ l).

(** [[...new Set(l)]]: a [Set] iterates in insertion order, so each value
    stays at its first occurrence.  [seen] is the set built so far. *)
Fixpoint uniqFrom (seen : list jsstring) (l : list jsstring) : list jsstring :=
  match l with
  | [] => []
  | x :: r => if mem x seen then uniqFrom seen r else x :: uniqFrom (x :: seen) r
  end.

Definition uniq (l : list jsstring) : list jsstring := uniqFrom [] l.

(** [parseInt(s)] with no radix, as an exact integer; [None] is [NaN].
    Leading white space is skipped, then an optional sign, then an optional
    [0x]/[0X] (radix 16), then the longest run of digits of the radix.  The
    JavaScript result is the double nearest to this integer, the same value
    below 2^53. *)
Definition digitValue (radix : N) (c : N) : option N :=
  let v :=
    if (48 <=? c) && (c <=? 57) then Some (c - 48)
    else if (97 <=? c) && (c <=? 122) then Some (c - 87)
    else if (65 <=? c) && (c <=? 90) then Some (c - 55)
    else None in
  match v with
  | Some d => if d <? radix then Some d else None
  | None => None
  end.

Definition isRadixDigit (radix : N) (c : N) : bool :=
  match digitValue radix c with Some _ => true | None => false end.

Definition digitsValue (radix : N) (ds : jsstring) : N :=
  fold_left (fun acc c => acc * radix + default 0 (digitValue radix c)) ds 0.

Definition parseInt (s : jsstring) : option Z :=
  let s1 := dropWhile isWhiteSpace s in
  let '(negative, s2) :=
    match s1 with
    | 45 :: r => (true, r)
    | 43 :: r => (false, r)
    | _ => (false, s1)
    end in
  let '(radix, s3) :=
    match s2 with
    | 48 :: 120 :: r => (16, r)
    | 48 :: 88 :: r => (16, r)
    | _ => (10, s2)
    end in
  match takeWhile (isRadixDigit radix) s3 with
  | [] => None
  | ds =>
      let v := Z.of_N (digitsValue radix ds) in
      Some (if negative : bool then (- v)%Z else v)
  end.

End Js.

(** ** Contact normalisation (lines 91-96, 314-319, 475-480)

<<
    numbers = [...new Set(
      numbers
        .map((n) => n.replace(/\D/g, ""))
        .filter((n) => n.length >= 10)
        .map((n) => (n.startsWith("91") ? `+${n}` : `+91${n.slice(-10)}`))
    )];
>> *)

Definition addCountryCode (n : jsstring) : jsstring :=
  if Js.startsWith (lit "91") n then lit "+" ++ n
  else lit "+91" ++ Js.sliceLast 10 n.

Definition normalizeNumbers (numbers : list jsstring) : list jsstring :=
  Js.uniq
    (List.map addCountryCode
       (List.filter (fun n => (10 <=? length n)%nat)
          (List.map Js.stripNonDigits numbers))).


(** ** The collaborators

    [client.isRegisteredUser], [client.sendMessage], [mediaFile.mv],
    [fs.readFileSync] and [fs.unlinkSync] return or throw; what they throw is
    an [Error], kept as its [message].  [io.emit] and the timer do not
    throw. *)

Inductive outcome (A : Type) : Type :=
| Returns (a : A)
| Throws (message : jsstring).
Arguments Returns {A} a.
Arguments Throws {A} message.

(** What the collaborators answer during one iteration of the loop.  Each of
    them is called at most once per iteration, so a script indexed by the
    loop counter fixes every answer of a run. *)
Record answers : Type := {
  isRegisteredUser : outcome bool;
  mv : outcome unit;
  readFileSync : outcome jsstring;
  sendMessage : outcome unit;
  unlinkSync : outcome unit
}.

(** [req.files.media] of express-fileupload; [dataBase64] is
    [mediaFile.data.toString("base64")]. *)
Record MediaFile : Type := {
  mimetype : jsstring;
  size : N;
  name : jsstring;
  dataBase64 : jsstring
}.

(** Second argument of [client.sendMessage]: the text, or a [MessageMedia]
    with the text as caption. *)
Inductive content : Type :=
| Text (message : jsstring)
| MessageMedia (mimetype base64 filename caption : jsstring).

Inductive skipReason : Type :=
| NotOnWhatsApp      (* "(not on WhatsApp)" *)
| InvalidFileType    (* "(invalid file type)" *)
| FileTooBig.        (* "(file >16MB)" *)

(** The strings given to [io.emit("status", ...)], by template:
    "Skipped <number> <reason>" (the third version gives no reason),
    "(<i+1>/<total>) Sent to <number>",
    "(<i+1>/<total>) Failed to send to <number>" (the third version appends
    the error message), and
    "Done! Sent: <sent>, Skipped: <skipped>, Failed: <failed>". *)
Inductive event : Type :=
| Skipped (number : jsstring) (reason : option skipReason)
| Sent (index total : nat) (number : jsstring)
| Failed (index total : nat) (number : jsstring) (detail : option jsstring)
| Done (sent skipped failed : nat).

(** What the handler does to the outside, in the order it does it. *)
Inductive action : Type :=
| ReadClientInfo
| CallIsRegisteredUser (chatId : jsstring)
| CallMv (path : jsstring)
| CallReadFileSync (path : jsstring)
| CallSendMessage (chatId : jsstring) (c : content)
| CallUnlinkSync (path : jsstring)
| Emit (e : event)
| Delay (ms : Z).

(** The three counters of the handler and the files under [uploads/]. *)
Record state : Type := {
  sentCount : nat;
  skippedCount : nat;
  failedCount : nat;
  files : gset jsstring
}.

(** ** A monad for the loop body

    A computation appends to the trace, changes the state and completes
    normally, by [continue] or by [throw]. *)

Inductive completion (A : Type) : Type :=
| Normal (a : A)
| Continue
| Throw (message : jsstring).
Arguments Normal {A} a.
Arguments Continue {A}.
Arguments Throw {A} message.

Definition M (A : Type) : Type := state -> list action * state * completion A.

Definition ret {A} (a : A) : M A := fun s => ([], s, Normal a).

Definition bind {A B} (m : M A) (f : A -> M B) : M B :=
  fun s =>
    let '(t1, s1, c1) := m s in
    match c1 with
    | Normal a => let '(t2, s2, c2) := f a s1 in (t1 ++ t2, s2, c2)
    | Continue => (t1, s1, Continue)
    | Throw e => (t1, s1, Throw e)
    end.

Declare Scope js_scope.
Delimit Scope js_scope with js.
Notation "x <- m ;; k" := (bind m (fun x => k))
  (at level 100, m at next level, right associativity) : js_scope.
Notation "m ;; k" := (bind m (fun _ => k))
  (at level 100, right associativity) : js_scope.
Local Open Scope js_scope.

(** A call of a collaborator: recorded, then answered. *)
Definition call {A} (a : action) (o : outcome A) : M A :=
  fun s => ([a], s, match o with Returns v => Normal v | Throws e => Throw e end).

Definition emit (e : event) : M unit := fun s => ([Emit e], s, Normal tt).

Definition delay (ms : Z) : M unit := fun s => ([Delay ms], s, Normal tt).

Definition continue {A} : M A := fun s => ([], s, Continue).

Definition modify (f : state -> state) : M unit := fun s => ([], f s, Normal tt).

Definition get : M state := fun s => ([], s, Normal s).

(** [if (c) { m }] *)
Definition when (c : bool) (m : M unit) : M unit := if c then m else ret tt.

(** [try { m } catch (err) { h err }]: [continue] leaves the [try] as it
    is, there is no [finally]. *)
Definition tryCatch {A} (m : M A) (h : jsstring -> M A) : M A :=
  fun s =>
    let '(t1, s1, c1) := m s in
    match c1 with
    | Throw e => let '(t2, s2, c2) := h e s1 in (t1 ++ t2, s2, c2)
    | _ => (t1, s1, c1)
    end.

Definition incrSent : M unit :=
  modify (fun s => {| sentCount := S (sentCount s); skippedCount := skippedCount s;
                      failedCount := failedCount s; files := files s |}).
Definition incrSkipped : M unit :=
  modify (fun s => {| sentCount := sentCount s; skippedCount := S (skippedCount s);
                      failedCount := failedCount s; files := files s |}).
Definition incrFailed : M unit :=
  modify (fun s => {| sentCount := sentCount s; skippedCount := skippedCount s;
                      failedCount := S (failedCount s); files := files s |}).
Definition setFiles (f : gset jsstring -> gset jsstring) : M unit :=
  modify (fun s => {| sentCount := sentCount s; skippedCount := skippedCount s;
                      failedCount := failedCount s; files := f (files s) |}).

(** [for (let i = 0; i < total; i++) { body }]: [continue] ends the
    iteration and goes on with [i++], a [throw] that leaves the body leaves
    the loop. *)
Fixpoint forLoop (body : nat -> jsstring -> M unit) (i : nat)
    (numbers : list jsstring) : M unit :=
  match numbers with
  | [] => ret tt
  | number :: rest =>
      fun s =>
        let '(t1, s1, c1) := body i number s in
        match c1 with
        | Throw e => (t1, s1, Throw e)
        | _ => let '(t2, s2, c2) := forLoop body (S i) rest s1 in (t1 ++ t2, s2, c2)
        end
  end.

(** ** The dispatch loop (lines 120-180, 334-387, 504-545) *)

(** The two designs of the handler in [index.js]: [Guarded] is the first and
    the second version, [Simple] the third. *)
Inductive variant : Type := Guarded | Simple.

(** What the asynchronous loop closes over. *)
Record job : Type := {
  numbers : list jsstring;
  message : jsstring;
  mediaFile : option MediaFile;
  msgDelay : Z
}.

(** [number.replace("+", "") + "@c.us"] *)
Definition chatIdOf (number : jsstring) : jsstring :=
  Js.removeFirst 43 number ++ lit "@c.us".

(** [path.join(uploadsDir, mediaFile.name)], relative to [__dirname]. *)
Definition uploadPathOf (m : MediaFile) : jsstring :=
  lit "uploads/" ++ name m.

Definition invalidFileType (m : MediaFile) : bool :=
  negb (Js.startsWith (lit "video/") (mimetype m))
  && negb (Js.startsWith (lit "image/") (mimetype m)).

Definition fileTooBig (m : MediaFile) : bool := 16 * 1024 * 1024 <? size m.

(** The send of the first and second version: media checks, scratch file,
    [sendMessage], [unlinkSync]. *)
Definition sendGuarded (j : job) (a : answers) (number chatId : jsstring) : M unit :=
  match mediaFile j with
  | Some m =>
      when (invalidFileType m)
        (emit (Skipped number (Some InvalidFileType)) ;; incrSkipped ;; continue) ;;
      when (fileTooBig m)
        (emit (Skipped number (Some FileTooBig)) ;; incrSkipped ;; continue) ;;
      let uploadPath := uploadPathOf m in
      call (CallMv uploadPath) (mv a) ;;
      setFiles (fun fs => {[uploadPath]} ∪ fs) ;;
      base64 <- call (CallReadFileSync uploadPath) (readFileSync a) ;;
      let media := MessageMedia (mimetype m) base64 (name m) (message j) in
      call (CallSendMessage chatId media) (sendMessage a) ;;
      call (CallUnlinkSync uploadPath) (unlinkSync a) ;;
      setFiles (fun fs => fs ∖ {[uploadPath]})
  | None => call (CallSendMessage chatId (Text (message j))) (sendMessage a)
  end.

(** The send of the third version: the media goes out from memory. *)
Definition sendSimple (j : job) (a : answers) (chatId : jsstring) : M unit :=
  match mediaFile j with
  | Some m =>
      let media := MessageMedia (mimetype m) (dataBase64 m) (name m) (message j) in
      call (CallSendMessage chatId media) (sendMessage a)
  | None => call (CallSendMessage chatId (Text (message j))) (sendMessage a)
  end.

(** The body of the [for] loop. *)
Definition iteration (v : variant) (j : job) (script : nat -> answers)
    (i : nat) (number : jsstring) : M unit :=
  let a := script i in
  let total := length (numbers j) in
  let chatId := chatIdOf number in
  tryCatch
    (isRegistered <- call (CallIsRegisteredUser chatId) (isRegisteredUser a) ;;
     when (negb isRegistered)
       (incrSkipped ;;
        emit (Skipped number
                (match v with Guarded => Some NotOnWhatsApp | Simple => None end)) ;;
        continue) ;;
     match v with
     | Guarded => sendGuarded j a number chatId
     | Simple => sendSimple j a chatId
     end ;;
     incrSent ;;
     emit (Sent (i + 1) total number))
    (fun err =>
       incrFailed ;;
       emit (Failed (i + 1) total number
               (match v with Guarded => None | Simple => Some err end))) ;;
  delay (msgDelay j).

(** The asynchronous function: the loop, then the summary. *)
Definition dispatch (v : variant) (j : job) (script : nat -> answers) : M unit :=
  forLoop (iteration v j script) 0 (numbers j) ;;
  s <- get ;;
  emit (Done (sentCount s) (skippedCount s) (failedCount s)).

(** ** The request handler (lines 65-187, 289-394, 454-552) *)

Record request : Type := {
  bodyNumbers : option jsstring;                  (* req.body.numbers *)
  filesExcel : option (outcome (list jsstring));  (* req.files.excel, read by XLSX:
                                                     String(row[Object.keys(row)[0]] || "")
                                                     per row object of sheet_to_json *)
  bodyMessage : option jsstring;                  (* req.body.message *)
  filesMedia : option MediaFile;                  (* req.files.media *)
  bodyDelay : option jsstring                     (* req.body.delay *)
}.

Record world : Type := {
  clientReady : bool;          (* client.info && client.info.wid *)
  script : nat -> answers;
  disk : gset jsstring
}.

Inductive responseBody : Type :=
| ErrorBody (error : jsstring)
| SendingBody (total : nat).

Record response : Type := { status : nat; body : responseBody }.

(** The outcome of one request: the response, everything done to the
    outside, and the end of the asynchronous function when it was started. *)
Record run : Type := {
  runResponse : response;
  runTrace : list action;
  runJob : option (state * completion unit)
}.

Definition textareaNumbers (r : request) : list jsstring :=
  match bodyNumbers r with
  | Some s => if Js.truthy (Js.trim s) then List.map Js.trim (Js.split 44 s) else []
  | None => []
  end.

Definition excelNumbers (cells : list jsstring) : list jsstring :=
  List.filter Js.allDigits (List.map Js.trim cells).

(** The footer of the third version (lines 488-491); the three emoji are
    surrogate pairs. *)
Definition footer : jsstring :=
  [10; 10; 55357; 57321] ++ lit " *" ++ [55357; 56542]
  ++ lit " CALL US 9723625050*  " ++ [10; 55357; 57321; 32; 55356; 57104]
  ++ lit " *VISIT NOW* https://www.promiseacademy.co.in/".

(** [req.body.message || ""], with the footer in the third version. *)
Definition composeMessage (v : variant) (r : request) : jsstring :=
  let m := default [] (bodyMessage r) in
  match v with Guarded => m | Simple => m ++ footer end.

(** [!message.trim() && !mediaFile] *)
Definition payloadMissing (message : jsstring) (mediaFile : option MediaFile) : bool :=
  negb (Js.truthy (Js.trim message))
  && match mediaFile with Some _ => false | None => true end.

(** [x || d] on a number: [NaN] and [0] are falsy. *)
Definition orElse (x : option Z) (d : Z) : Z :=
  match x with
  | None => d
  | Some 0%Z => d
  | Some z => z
  end.

(** [Math.max(parseInt(req.body.delay) || 2000, 1500)]; an absent field is
    [undefined], which [parseInt] reads as ["undefined"]. *)
Definition effectiveDelay (d : option jsstring) : Z :=
  Z.max (orElse (Js.parseInt (default (lit "undefined") d)) 2000) 1500.

Definition reject (code : nat) (error : string) (t : list action) : run :=
  {| runResponse := {| status := code; body := ErrorBody (lit error) |};
     runTrace := t; runJob := None |}.

(** The recipients of a request (lines 72-96): text area and first column
    of the sheet, normalised.  [XLSX.read] may throw. *)
Definition collectNumbers (r : request) : outcome (list jsstring) :=
  match filesExcel r with
  | Some (Throws e) => Throws e
  | Some (Returns cells) =>
      Returns (normalizeNumbers (textareaNumbers r ++ excelNumbers cells))
  | None => Returns (normalizeNumbers (textareaNumbers r))
  end.

Definition initialState (w : world) : state :=
  {| sentCount := 0; skippedCount := 0; failedCount := 0; files := disk w |}.

(** The asynchronous function is started and not awaited: the response does
    not depend on it, and the outer [catch] (500) only sees what is thrown
    before it. *)
Definition handle (v : variant) (w : world) (r : request) : run :=
  let guard := match v with Guarded => [ReadClientInfo] | Simple => [] end in
  if match v with Guarded => negb (clientReady w) | Simple => false end
  then reject 400 "WhatsApp not ready. Please scan QR." guard
  else
    match collectNumbers r with
    | Throws _ => reject 500 "Internal Server Error" guard
    | Returns numbers =>
        if (length numbers =? 0)%nat then reject 400 "No valid numbers found." guard
        else
          let message := composeMessage v r in
          if payloadMissing message (filesMedia r)
          then reject 400 "Message or media is required." guard
          else
            let j := {| numbers := numbers; message := message;
                        mediaFile := filesMedia r;
                        msgDelay := effectiveDelay (bodyDelay r) |} in
            let '(t, s, c) := dispatch v j (script w) (initialState w) in
            {| runResponse := {| status := 200; body := SendingBody (length numbers) |};
               runTrace := guard ++ t; runJob := Some (s, c) |}
    end.

(** Reading the result of a computation. *)
Definition traceOf {A} (r : list action * state * completion A) : list action := r.1.1.
Definition stateOf {A} (r : list action * state * completion A) : state := r.1.2.
Definition completionOf {A} (r : list action * state * completion A) : completion A := r.2.

(** The events, the pacing delays and the sends of a trace. *)
Definition emitted (t : list action) : list event :=
  omap (fun a => match a with Emit e => Some e | _ => None end) t.
Definition delays (t : list action) : list Z :=
  omap (fun a => match a with Delay ms => Some ms | _ => None end) t.
Definition sends (t : list action) : list jsstring :=
  omap (fun a => match a with CallSendMessage c _ => Some c | _ => None end) t.

Definition regChecks (t : list action) : list jsstring :=
  omap (fun a => match a with CallIsRegisteredUser c => Some c | _ => None end) t.
Definition unlinks (t : list action) : list jsstring :=
  omap (fun a => match a with CallUnlinkSync p => Some p | _ => None end) t.

(** The three counters, as the summary prints them. *)
Definition counters (s : state) : nat * nat * nat :=
  (sentCount s, skippedCount s, failedCount s).

(** The recipient an event is about; the summary is about none. *)
Definition recipientOf (e : event) : option jsstring :=
  match e with
  | Skipped n _ | Sent _ _ n | Failed _ _ n _ => Some n
  | Done _ _ _ => None
  end.

(** The normaliser in the words of the specification: [digitsOf entry d]
    when [d] is [entry] with every non-digit removed, and
    [canonical entry o] when [o] is what an entry contributes. *)
Inductive digitsOf : jsstring -> jsstring -> Prop :=
| digitsOf_nil : digitsOf [] []
| digitsOf_keep c s d :
    Js.isDigit c = true -> digitsOf s d -> digitsOf (c :: s) (c :: d)
| digitsOf_drop c s d :
    Js.isDigit c = false -> digitsOf s d -> digitsOf (c :: s) d.

Inductive canonical (entry : jsstring) : option jsstring -> Prop :=
| canonical_discard d :
    digitsOf entry d -> (length d < 10)%nat -> canonical entry None
| canonical_home d r :
    digitsOf entry d -> (10 <= length d)%nat -> d = lit "91" ++ r ->
    canonical entry (Some (lit "+" ++ d))
| canonical_other d front last10 :
    digitsOf entry d -> (10 <= length d)%nat -> (forall r, d <> lit "91" ++ r) ->
    d = front ++ last10 -> length last10 = 10%nat ->
    canonical entry (Some (lit "+91" ++ last10)).

(** What one entry contributes, read off the pipeline. *)
Definition entryId (entry : jsstring) : option jsstring :=
  let d := Js.stripNonDigits entry in
  if (10 <=? length d)%nat then Some (addCountryCode d) else None.

(** [reportsOn number t]: the trace [t] of one iteration checks the
    registration of [number] once, emits exactly one event, about [number],
    calls [sendMessage] for nobody else, and calls no collaborator after the
    event. *)
Definition reportsOn (number : jsstring) (t : list action) : Prop :=
  exists pre e post,
    t = pre ++ Emit e :: post
    /\ recipientOf e = Some number
    /\ emitted pre = [] /\ emitted post = []
    /\ regChecks pre = [chatIdOf number] /\ regChecks post = []
    /\ (forall c, c ∈ sends pre -> c = chatIdOf number) /\ sends post = [].

(** The sum the summary adds up to. *)
Definition processed (s : state) : nat :=
  (sentCount s + skippedCount s + failedCount s)%nat.

(** The summary events of a trace. *)
Definition summaries (t : list action) : list event :=
  List.filter (fun e => match e with Done _ _ _ => true | _ => false end) (emitted t).

(** The send of an iteration is reached: in the first two versions an
    attached media has passed the checks and was written and read back. *)
Definition reachesSend (v : variant) (j : job) (a : answers) : Prop :=
  isRegisteredUser a = Returns true
  /\ match v, mediaFile j with
     | Guarded, Some m =>
         invalidFileType m = false /\ fileTooBig m = false
         /\ mv a = Returns tt /\ exists base64, readFileSync a = Returns base64
     | _, _ => True
     end.

(** The iteration delivers: the send is reached and returns, and so does the
    removal of the scratch file where there is one. *)
Definition delivers (v : variant) (j : job) (a : answers) : Prop :=
  reachesSend v j a
  /\ sendMessage a = Returns tt
  /\ match v, mediaFile j with
     | Guarded, Some _ => unlinkSync a = Returns tt
     | _, _ => True
     end.

(** The job a request starts, and what the handler does before it. *)
Definition jobOf (v : variant) (r : request) (numbers : list jsstring) : job :=
  {| numbers := numbers; message := composeMessage v r; mediaFile := filesMedia r;
     msgDelay := effectiveDelay (bodyDelay r) |}.

Definition guardTrace (v : variant) : list action :=
  match v with Guarded => [ReadClientInfo] | Simple => [] end.

(** The request gets as far as the check of message and media. *)
Definition reachesValidation (v : variant) (w : world) (r : request) : Prop :=
  (v = Guarded -> clientReady w = true)
  /\ exists numbers, collectNumbers r = Returns numbers /\ numbers <> [].

Definition messageOrMediaRequired : response :=
  {| status := 400; body := ErrorBody (lit "Message or media is required.") |}.

(** ** Sample data for the worked runs *)

Definition alice : jsstring := lit "+919876543210".
Definition bob : jsstring := lit "+919876543211".

Definition answersOk : answers :=
  {| isRegisteredUser := Returns true; mv := Returns tt;
     readFileSync := Returns (lit "iVBORw0KGgo="); sendMessage := Returns tt;
     unlinkSync := Returns tt |}.

Definition answersUnregistered : answers :=
  {| isRegisteredUser := Returns false; mv := Returns tt;
     readFileSync := Returns (lit "iVBORw0KGgo="); sendMessage := Returns tt;
     unlinkSync := Returns tt |}.

Definition answersSendThrows : answers :=
  {| isRegisteredUser := Returns true; mv := Returns tt;
     readFileSync := Returns (lit "iVBORw0KGgo=");
     sendMessage := Throws (lit "Evaluation failed"); unlinkSync := Returns tt |}.

(** A client that is not initialised: every call throws. *)
Definition answersNotReady : answers :=
  {| isRegisteredUser := Throws (lit "Cannot read properties of undefined");
     mv := Returns tt; readFileSync := Returns (lit "iVBORw0KGgo=");
     sendMessage := Throws (lit "Cannot read properties of undefined");
     unlinkSync := Returns tt |}.

Definition photo : MediaFile :=
  {| mimetype := lit "image/png"; size := 1024; name := lit "photo.png";
     dataBase64 := lit "iVBORw0KGgo=" |}.

(** A PDF of 20 MiB: neither image nor video, and over 16 MiB. *)
Definition bigPdf : MediaFile :=
  {| mimetype := lit "application/pdf"; size := 20 * 1024 * 1024;
     name := lit "doc.pdf"; dataBase64 := lit "JVBERi0xLjQ=" |}.

Definition freshState : state :=
  {| sentCount := 0; skippedCount := 0; failedCount := 0; files := ∅ |}.

Definition textJob (numbers : list jsstring) : job :=
  {| numbers := numbers; message := lit "hi"; mediaFile := None; msgDelay := 2000 |}.

Definition mediaJob (m : MediaFile) (numbers : list jsstring) : job :=
  {| numbers := numbers; message := lit "hi"; mediaFile := Some m; msgDelay := 2000 |}.

Definition textRequest (numbers : string) (delay : option jsstring) : request :=
  {| bodyNumbers := Some (lit numbers); filesExcel := None;
     bodyMessage := Some (lit "hi"); filesMedia := None; bodyDelay := delay |}.

Definition worldOf (ready : bool) (script : nat -> answers) : world :=
  {| clientReady := ready; script := script; disk := ∅ |}.

Definition mediaRequest (numbers : string) (m : MediaFile) : request :=
  {| bodyNumbers := Some (lit numbers); filesExcel := None;
     bodyMessage := Some (lit "hi"); filesMedia := Some m; bodyDelay := None |}.

(** Three recipients: the first is delivered, the second is not on the
    platform, the send to the third throws. *)
Definition mixedScript (i : nat) : answers :=
  match i with
  | 1%nat => answersUnregistered
  | 2%nat => answersSendThrows
  | _ => answersOk
  end.

(** Five recipients, the send to the third throws. *)
Definition fiveNumbers : list jsstring :=
  [lit "+919876543210"; lit "+919876543211"; lit "+919876543212";
   lit "+919876543213"; lit "+919876543214"].

Definition thirdThrows (i : nat) : answers :=
  match i with 2%nat => answersSendThrows | _ => answersOk end.

(** A request with a blank message and no media. *)
Definition blankRequest : request :=
  {| bodyNumbers := Some (lit "9876543210"); filesExcel := None;
     bodyMessage := Some (lit "  "); filesMedia := None; bodyDelay := None |}.

(** ** Further readings of a trace and of a request *)

(** What was handed to [client.sendMessage], and the text it carries: the
    message itself or the caption of the media. *)
Definition contents (t : list action) : list content :=
  omap (fun a => match a with CallSendMessage _ c => Some c | _ => None end) t.

Definition contentText (c : content) : jsstring :=
  match c with
  | Text m => m
  | MessageMedia _ _ _ caption => caption
  end.

(** The paths given to [mediaFile.mv], [fs.readFileSync], [fs.unlinkSync]. *)
Definition fsCalls (t : list action) : list jsstring :=
  omap (fun a => match a with
                 | CallMv p | CallReadFileSync p | CallUnlinkSync p => Some p
                 | _ => None
                 end) t.

Definition isSent (e : event) : bool :=
  match e with Sent _ _ _ => true | _ => false end.
Definition isSkipped (e : event) : bool :=
  match e with Skipped _ _ => true | _ => false end.
Definition isFailed (e : event) : bool :=
  match e with Failed _ _ _ _ => true | _ => false end.

Definition countWhere (p : event -> bool) (es : list event) : nat :=
  length (List.filter p es).

(** [indexed ns e]: a sent or failed event carries the position of its
    recipient in [ns], counted from 1, over the length of [ns]; a skip event
    names a recipient of [ns]. *)
Definition indexed (ns : list jsstring) (e : event) : Prop :=
  match e with
  | Sent k total n | Failed k total n _ =>
      total = length ns /\ exists i, k = (i + 1)%nat /\ ns !! i = Some n
  | Skipped n _ => n ∈ ns
  | Done _ _ _ => True
  end.

(** [pieces.join(",")] *)
Fixpoint join (sep : N) (pieces : list jsstring) : jsstring :=
  match pieces with
  | [] => []
  | [p] => p
  | p :: rest => p ++ sep :: join sep rest
  end.

(** Everything a request offers as a number, before normalisation: the
    pieces of the text area, then the all-digit cells of the sheet. *)
Definition requestEntries (r : request) : list jsstring :=
  textareaNumbers r
  ++ match filesExcel r with
     | Some (Returns cells) => excelNumbers cells
     | _ => []
     end.

Definition noValidNumbers : response :=
  {| status := 400; body := ErrorBody (lit "No valid numbers found.") |}.

Definition notReady : response :=
  {| status := 400; body := ErrorBody (lit "WhatsApp not ready. Please scan QR.") |}.

(** The send goes out, the removal of the scratch file throws. *)
Definition answersUnlinkThrows : answers :=
  {| isRegisteredUser := Returns true; mv := Returns tt;
     readFileSync := Returns (lit "iVBORw0KGgo="); sendMessage := Returns tt;
     unlinkSync := Throws (lit "EPERM: operation not permitted") |}.

(** Three recipients in three spellings, as typed in the text area. *)
Definition threeRequest : request :=
  textRequest "9876543210, 919876543211,+91 98765-43212" None.

(** How long [setTimeout(res, ms)] of Node.js waits for a whole number of
    milliseconds: a delay above 2147483647 or below 1 is set to 1.  Every
    number above 2147483647, [Infinity] too, gives 1, so the pause of a
    request above that bound does not depend on how [parseInt] rounds. *)
Definition timerPause (ms : Z) : Z :=
  if ((2147483647 <? ms) || (ms <? 1))%Z then 1%Z else ms.

(** * Properties *)

Local Close Scope N_scope.

(** ** Strings *)

Section StringFacts.

Lemma dropWhile_nil p s : Js.dropWhile p s = [] <-> forallb p s = true.
Proof.
  induction s as [|c r IH]; simpl; [done|].
  destruct (p c) eqn:E; simpl; [done|]. split; discriminate.
Qed.

Lemma dropWhile_head p s c r : Js.dropWhile p s = c :: r -> p c = false.
Proof.
  induction s as [|x s IH]; simpl; [discriminate|].
  destruct (p x) eqn:E; [done|]. intros [= <- _]. done.
Qed.

Lemma forallb_rev (p : N -> bool) s : forallb p (rev s) = forallb p s.
Proof.
  induction s as [|c r IH]; simpl; [done|].
  rewrite forallb_app, IH. simpl. rewrite andb_true_r. apply andb_comm.
Qed.

(** [trim] leaves nothing exactly for the strings of white space. *)
Lemma trim_nil s : Js.trim s = [] <-> forallb Js.isWhiteSpace s = true.
Proof.
  unfold Js.trim. rewrite <- dropWhile_nil.
  split.
  - intros H. apply (f_equal (@rev N)) in H. rewrite rev_involutive in H.
    simpl in H. apply dropWhile_nil in H. rewrite forallb_rev in H.
    destruct (Js.dropWhile Js.isWhiteSpace s) as [|c r] eqn:E; [done|].
    apply dropWhile_head in E. simpl in H. rewrite E in H. discriminate.
  - intros ->. done.
Qed.

Lemma truthy_false s : Js.truthy s = false <-> s = [].
Proof. destruct s; simpl; split; done. Qed.

Lemma startsWith_prefix p s : Js.startsWith p s = true <-> exists r, s = p ++ r.
Proof.
  revert s. induction p as [|a p IH]; intros s; simpl.
  - split; [eauto|done].
  - destruct s as [|b s].
    + split; [done|]. intros [r Hr]. discriminate.
    + rewrite andb_true_iff, N.eqb_eq, IH. split.
      * intros [-> [r ->]]. eauto.
      * intros [r [= -> ->]]. eauto.
Qed.

Lemma mem_spec x l : Js.mem x l = true <-> x ∈ l.
Proof. unfold Js.mem. apply bool_decide_eq_true. Qed.

Lemma uniqFrom_elem seen l x :
  x ∈ Js.uniqFrom seen l <-> x ∈ l /\ x ∉ seen.
Proof.
  revert seen. induction l as [|y r IH]; intros seen; simpl.
  - set_solver.
  - destruct (Js.mem y seen) eqn:E.
    + apply mem_spec in E. rewrite IH. set_solver.
    + assert (y ∉ seen) by (intros H; apply mem_spec in H; congruence).
      rewrite elem_of_cons, IH.
      destruct (decide (x = y)) as [->|]; set_solver.
Qed.

Lemma uniqFrom_NoDup seen l : NoDup (Js.uniqFrom seen l).
Proof.
  revert seen. induction l as [|y r IH]; intros seen; simpl.
  - constructor.
  - destruct (Js.mem y seen); [apply IH|].
    constructor; [|apply IH].
    rewrite uniqFrom_elem. set_solver.
Qed.

Lemma uniq_elem l x : x ∈ Js.uniq l <-> x ∈ l.
Proof. unfold Js.uniq. rewrite uniqFrom_elem. set_solver. Qed.

Lemma uniq_NoDup l : NoDup (Js.uniq l).
Proof. apply uniqFrom_NoDup. Qed.

End StringFacts.

(** ** Contact normalisation *)

Section Normaliser.

Lemma digitsOf_strip s : digitsOf s (Js.stripNonDigits s).
Proof.
  induction s as [|c s IH]; simpl; [constructor|].
  destruct (Js.isDigit c) eqn:E; constructor; done.
Qed.

Lemma digitsOf_fun s d : digitsOf s d -> d = Js.stripNonDigits s.
Proof.
  induction 1 as [|c s d Hc _ IH|c s d Hc _ IH]; simpl; [done|..];
    rewrite Hc; congruence.
Qed.

Lemma sliceLast_split k s :
  (k <= length s)%nat ->
  exists front, s = front ++ Js.sliceLast k s /\ length (Js.sliceLast k s) = k.
Proof.
  intros Hk. unfold Js.sliceLast. exists (firstn (length s - k) s). split.
  - symmetry. apply firstn_skipn.
  - rewrite length_skipn. lia.
Qed.

Lemma suffix_unique (f1 f2 l1 l2 : jsstring) :
  f1 ++ l1 = f2 ++ l2 -> length l1 = length l2 -> l1 = l2.
Proof.
  intros H Hl.
  assert (length f1 = length f2) as Hf.
  { apply (f_equal (@length N)) in H. rewrite !length_app in H. lia. }
  by apply app_inj_1 in H as [_ ?].
Qed.

Lemma canonical_entryId entry o : canonical entry o <-> o = entryId entry.
Proof.
  unfold entryId, addCountryCode. split.
  - intros [d Hd Hlen|d r Hd Hlen Hr|d front last10 Hd Hlen Hno Hsplit Hl];
      apply digitsOf_fun in Hd; subst d.
    + destruct (Nat.leb_spec 10 (length (Js.stripNonDigits entry))); [lia|done].
    + destruct (Nat.leb_spec 10 (length (Js.stripNonDigits entry))); [|lia].
      assert (Js.startsWith (lit "91") (Js.stripNonDigits entry) = true) as ->
        by (apply startsWith_prefix; eauto).
      done.
    + destruct (Nat.leb_spec 10 (length (Js.stripNonDigits entry))); [|lia].
      destruct (Js.startsWith (lit "91") (Js.stripNonDigits entry)) eqn:E.
      { apply startsWith_prefix in E as [r Hr]. by destruct (Hno r). }
      destruct (sliceLast_split 10 (Js.stripNonDigits entry)) as (f & Hf & Hlf);
        [lia|].
      do 2 f_equal. rewrite Hf in Hsplit at 1.
      symmetry. eapply suffix_unique; [exact Hsplit|lia].
  - intros ->. pose proof (digitsOf_strip entry) as Hd.
    destruct (Nat.leb_spec 10 (length (Js.stripNonDigits entry))) as [Hlen|Hlen].
    + destruct (Js.startsWith (lit "91") (Js.stripNonDigits entry)) eqn:E.
      * apply startsWith_prefix in E as [r Hr].
        eapply canonical_home; eauto.
      * destruct (sliceLast_split 10 (Js.stripNonDigits entry)) as (f & Hf & Hlf);
          [lia|].
        eapply canonical_other; eauto.
        intros r Hr. assert (Js.startsWith (lit "91") (Js.stripNonDigits entry) = true)
          by (apply startsWith_prefix; eauto). congruence.
    + eapply canonical_discard; eauto.
Qed.

Lemma normalizeNumbers_elem raw id :
  id ∈ normalizeNumbers raw <-> exists entry, entry ∈ raw /\ entryId entry = Some id.
Proof.
  unfold normalizeNumbers. rewrite uniq_elem, list_elem_of_In, in_map_iff.
  unfold entryId. split.
  - intros (d & <- & Hd). apply filter_In in Hd as [Hd Hlen].
    apply in_map_iff in Hd as (entry & <- & Hin).
    exists entry. rewrite list_elem_of_In. split; [done|]. by rewrite Hlen.
  - intros (entry & Hin & H).
    destruct (10 <=? length (Js.stripNonDigits entry))%nat eqn:Hlen; [|done].
    injection H as <-. exists (Js.stripNonDigits entry). split; [done|].
    apply filter_In. split; [|done]. apply in_map. by apply list_elem_of_In.
Qed.

End Normaliser.

(** C3. The normaliser keeps, for every raw entry, its digits; drops the
    entry when fewer than 10 digits remain; gives "+" and the digits when
    they start with "91" and "+91" and the last 10 digits otherwise; and the
    result has no duplicates: the three spellings of 9876543210 give the one
    id "+919876543210". *)
Theorem normalizeNumbers_canonical_set (raw : list jsstring) :
  NoDup (normalizeNumbers raw)
  /\ (forall id, id ∈ normalizeNumbers raw
                 <-> exists entry, entry ∈ raw /\ canonical entry (Some id))
  /\ normalizeNumbers [lit "9876543210"; lit "919876543210"; lit "+919876543210"]
     = [lit "+919876543210"].
Proof.
  split; [apply uniq_NoDup|]. split; [|reflexivity].
  intros id. rewrite normalizeNumbers_elem.
  split; intros (entry & Hin & H); exists entry; split; try done.
  - by apply canonical_entryId.
  - by apply canonical_entryId in H.
Qed.

(** ** Traces *)

Lemma emitted_app t1 t2 : emitted (t1 ++ t2) = emitted t1 ++ emitted t2.
Proof. apply omap_app. Qed.

Lemma regChecks_app t1 t2 : regChecks (t1 ++ t2) = regChecks t1 ++ regChecks t2.
Proof. apply omap_app. Qed.

Lemma sends_app t1 t2 : sends (t1 ++ t2) = sends t1 ++ sends t2.
Proof. apply omap_app. Qed.

Lemma delays_app t1 t2 : delays (t1 ++ t2) = delays t1 ++ delays t2.
Proof. apply omap_app. Qed.

(** A trace that ends with its only event and then its only delay. *)
Lemma paced_tail chatId pre e ms :
  emitted pre = [] -> delays pre = [] ->
  let t := CallIsRegisteredUser chatId :: pre ++ [Emit e; Delay ms] in
  emitted t = [e] /\ exists front, t = front ++ [Delay ms] /\ delays front = [].
Proof.
  intros He Hd. cbv zeta. split.
  - change (emitted (CallIsRegisteredUser chatId :: pre ++ [Emit e; Delay ms]))
      with (emitted (pre ++ [Emit e; Delay ms])).
    by rewrite emitted_app, He.
  - exists (CallIsRegisteredUser chatId :: pre ++ [Emit e]). split.
    + simpl. by rewrite <- app_assoc.
    + change (delays (CallIsRegisteredUser chatId :: pre ++ [Emit e]))
        with (delays (pre ++ [Emit e])).
      by rewrite delays_app, Hd.
Qed.

(** ** One iteration of the loop *)

Ltac run_iteration :=
  unfold iteration, sendGuarded, sendSimple, tryCatch, bind, when, call, emit,
    delay, continue, incrSent, incrSkipped, incrFailed, setFiles, modify, ret,
    traceOf, stateOf, completionOf, counters;
  simpl.

Section Iteration.

Variables (v : variant) (j : job) (script : nat -> answers).
Variables (i : nat) (number : jsstring) (s : state).

(** The three ways an iteration ends.  In each the registration check comes
    first and exactly one event is emitted, about this recipient.  Sent and
    failed iterations end with the pacing delay; a skipped one ends on its
    event by [continue], with no send and no delay. *)
Lemma iteration_outcomes :
  let r := iteration v j script i number s in
  let total := length (numbers j) in
  (exists pre,
      traceOf r = CallIsRegisteredUser (chatIdOf number) :: pre
                  ++ [Emit (Sent (i + 1) total number); Delay (msgDelay j)]
      /\ emitted pre = [] /\ delays pre = [] /\ regChecks pre = []
      /\ sends pre = [chatIdOf number]
      /\ (ReadClientInfo ∉ pre)
      /\ completionOf r = Normal tt
      /\ counters (stateOf r) = (S (sentCount s), skippedCount s, failedCount s))
  \/ (exists pre reason,
      traceOf r = CallIsRegisteredUser (chatIdOf number) :: pre
                  ++ [Emit (Skipped number reason)]
      /\ pre = [] /\ completionOf r = Continue
      /\ counters (stateOf r) = (sentCount s, S (skippedCount s), failedCount s))
  \/ (exists pre detail,
      traceOf r = CallIsRegisteredUser (chatIdOf number) :: pre
                  ++ [Emit (Failed (i + 1) total number detail); Delay (msgDelay j)]
      /\ emitted pre = [] /\ delays pre = [] /\ regChecks pre = []
      /\ (forall c, c ∈ sends pre -> c = chatIdOf number)
      /\ (ReadClientInfo ∉ pre)
      /\ completionOf r = Normal tt
      /\ counters (stateOf r) = (sentCount s, skippedCount s, S (failedCount s))).
Proof.
  run_iteration.
  destruct (isRegisteredUser (script i)) as [[]|e]; simpl.
  - destruct v; run_iteration.
    + destruct (mediaFile j) as [m|]; simpl.
      * destruct (invalidFileType m); simpl.
        { right; left. exists [], (Some InvalidFileType). done. }
        destruct (fileTooBig m); simpl.
        { right; left. exists [], (Some FileTooBig). done. }
        destruct (mv (script i)) as [[]|]; simpl;
          [|right; right; eexists [_], _; repeat split; set_solver].
        destruct (readFileSync (script i)); simpl;
          [|right; right; eexists [_; _], _; repeat split; set_solver].
        destruct (sendMessage (script i)) as [[]|]; simpl;
          [|right; right; eexists [_; _; _], _; repeat split; set_solver].
        destruct (unlinkSync (script i)) as [[]|]; simpl;
          [|right; right; eexists [_; _; _; _], _; repeat split; set_solver].
        left. eexists [_; _; _; _]. repeat split; set_solver.
      * destruct (sendMessage (script i)) as [[]|]; simpl.
        { left. eexists [_]. repeat split; set_solver. }
        right; right. eexists [_], _. repeat split; set_solver.
    + destruct (mediaFile j) as [m|]; simpl;
        (destruct (sendMessage (script i)) as [[]|]; simpl;
         [left; eexists [_]; repeat split; set_solver
         |right; right; eexists [_], _; repeat split; set_solver]).
  - right; left. destruct v; eexists [], _; done.
  - right; right. eexists [], _. repeat split; set_solver.
Qed.

(** Every pause of an iteration is the configured one, and no iteration
    looks at the readiness of the client. *)
Lemma iteration_delays :
  Forall (fun ms => ms = msgDelay j) (delays (traceOf (iteration v j script i number s))).
Proof.
  destruct iteration_outcomes
    as [(pre&Ht&He&Hd&_)|[(pre&reason&Ht&->&_)|(pre&d&Ht&He&Hd&_)]]; rewrite Ht.
  - destruct (paced_tail (chatIdOf number) pre
                (Sent (i + 1) (length (numbers j)) number) (msgDelay j) He Hd)
      as (_ & front & Hfront & Hf).
    rewrite Hfront, delays_app, Hf. by repeat constructor.
  - constructor.
  - destruct (paced_tail (chatIdOf number) pre
                (Failed (i + 1) (length (numbers j)) number d) (msgDelay j) He Hd)
      as (_ & front & Hfront & Hf).
    rewrite Hfront, delays_app, Hf. by repeat constructor.
Qed.

Lemma iteration_no_readiness_check :
  ReadClientInfo ∉ traceOf (iteration v j script i number s).
Proof.
  destruct iteration_outcomes
    as [(pre&Ht&_&_&_&_&Hr&_)|[(pre&reason&Ht&->&_)|(pre&d&Ht&_&_&_&_&Hr&_)]];
    rewrite Ht; set_solver.
Qed.

End Iteration.

Section Loop.

Variables (v : variant) (j : job) (script : nat -> answers).

Lemma iteration_no_throw i number s :
  completionOf (iteration v j script i number s) = Normal tt
  \/ completionOf (iteration v j script i number s) = Continue.
Proof.
  destruct (iteration_outcomes v j script i number s)
    as [(?&?&?&?&?&?&?&?&?)|[(?&?&?&?&?&?)|(?&?&?&?&?&?&?&?&?&?)]]; auto.
Qed.

Lemma iteration_reportsOn i number s :
  reportsOn number (traceOf (iteration v j script i number s)).
Proof.
  unfold reportsOn.
  destruct (iteration_outcomes v j script i number s)
    as [(pre&Ht&He&Hd&Hr&Hs&_)|[(pre&reason&Ht&->&_)|(pre&d&Ht&He&Hd&Hr&Hs&_)]];
    rewrite Ht.
  - exists (CallIsRegisteredUser (chatIdOf number) :: pre), (Sent (i + 1) (length (numbers j)) number),
      [Delay (msgDelay j)].
    simpl. unfold emitted, regChecks, sends in *. simpl. rewrite He, Hr, Hs.
    repeat split; try done. set_solver.
  - exists [CallIsRegisteredUser (chatIdOf number)], (Skipped number reason), [].
    repeat split; try done. set_solver.
  - exists (CallIsRegisteredUser (chatIdOf number) :: pre),
      (Failed (i + 1) (length (numbers j)) number d), [Delay (msgDelay j)].
    simpl. unfold emitted, regChecks, sends in *. simpl. rewrite He, Hr.
    repeat split; done.
Qed.

(** Each iteration adds one to exactly one of the three counters. *)
Lemma iteration_bumps_one i number s :
  let s' := stateOf (iteration v j script i number s) in
  counters s' = (S (sentCount s), skippedCount s, failedCount s)
  \/ counters s' = (sentCount s, S (skippedCount s), failedCount s)
  \/ counters s' = (sentCount s, skippedCount s, S (failedCount s)).
Proof.
  destruct (iteration_outcomes v j script i number s)
    as [(?&?&?&?&?&?&?&?&?)|[(?&?&?&?&?&?)|(?&?&?&?&?&?&?&?&?&?)]]; auto.
Qed.

Lemma iteration_processed i number s :
  processed (stateOf (iteration v j script i number s)) = S (processed s).
Proof.
  pose proof (iteration_bumps_one i number s) as H. unfold counters, processed in *.
  simpl in H. destruct H as [[= -> -> ->]|[[= -> -> ->]|[= -> -> ->]]]; lia.
Qed.

(** One step of the [for] loop whose body does not throw. *)
Lemma forLoop_step body i number rest s :
  (forall e, completionOf (body i number s) <> Throw e) ->
  let r1 := body i number s in
  let r2 := forLoop body (S i) rest (stateOf r1) in
  forLoop body i (number :: rest) s
  = (traceOf r1 ++ traceOf r2, stateOf r2, completionOf r2).
Proof.
  intros H. simpl. unfold traceOf, stateOf, completionOf in *.
  destruct (body i number s) as [[t1 s1] c1]. simpl in *.
  destruct (forLoop body (S i) rest s1) as [[t2 s2] c2].
  destruct c1; try done. by destruct (H message0).
Qed.

Lemma forLoop_iteration_step i number rest s :
  let r1 := iteration v j script i number s in
  let r2 := forLoop (iteration v j script) (S i) rest (stateOf r1) in
  let r := forLoop (iteration v j script) i (number :: rest) s in
  traceOf r = traceOf r1 ++ traceOf r2
  /\ stateOf r = stateOf r2
  /\ completionOf r = completionOf r2.
Proof.
  cbv zeta. rewrite forLoop_step; [done|]. intros e.
  destruct (iteration_no_throw i number s) as [-> | ->]; done.
Qed.

(** The loop runs every iteration, one recipient after the other, lets no
    exception out, and counts every recipient once. *)
Lemma forLoop_runs_all ns i s :
  let r := forLoop (iteration v j script) i ns s in
  completionOf r = Normal tt
  /\ processed (stateOf r) = (processed s + length ns)%nat
  /\ exists ts, traceOf r = concat ts /\ Forall2 reportsOn ns ts.
Proof.
  revert i s. induction ns as [|number rest IH]; intros i s.
  - cbn [forLoop]. unfold ret, traceOf, stateOf, completionOf. simpl.
    split; [done|]. split; [lia|]. exists []. split; [done|constructor].
  - cbv zeta.
    destruct (forLoop_iteration_step i number rest s) as (-> & -> & ->).
    destruct (IH (S i) (stateOf (iteration v j script i number s)))
      as (Hc & Hp & ts & Ht & Hts).
    split; [done|]. split.
    { rewrite Hp, iteration_processed. simpl. lia. }
    exists (traceOf (iteration v j script i number s) :: ts). split.
    + simpl. by rewrite Ht.
    + constructor; [apply iteration_reportsOn|done].
Qed.

(** A delivery counts as sent. *)
Lemma iteration_delivers i number s :
  delivers v j (script i) ->
  counters (stateOf (iteration v j script i number s))
  = (S (sentCount s), skippedCount s, failedCount s).
Proof.
  intros ((Hreg & Hreach) & Hsend & Hunlink). run_iteration. rewrite Hreg. simpl.
  destruct v; run_iteration.
  - destruct (mediaFile j) as [m|]; simpl.
    + destruct Hreach as (-> & -> & -> & b & ->). simpl.
      by rewrite Hsend, Hunlink.
    + by rewrite Hsend.
  - destruct (mediaFile j); simpl; by rewrite Hsend.
Qed.

(** A send that throws counts as failed, and as nothing else. *)
Lemma iteration_send_throws i number s e :
  reachesSend v j (script i) ->
  sendMessage (script i) = Throws e ->
  counters (stateOf (iteration v j script i number s))
  = (sentCount s, skippedCount s, S (failedCount s)).
Proof.
  intros (Hreg & Hreach) Hsend. run_iteration. rewrite Hreg. simpl.
  destruct v; run_iteration.
  - destruct (mediaFile j) as [m|]; simpl.
    + destruct Hreach as (-> & -> & -> & b & ->). simpl. by rewrite Hsend.
    + by rewrite Hsend.
  - destruct (mediaFile j); simpl; by rewrite Hsend.
Qed.

Lemma forLoop_delays ns i s :
  Forall (fun ms => ms = msgDelay j)
    (delays (traceOf (forLoop (iteration v j script) i ns s))).
Proof.
  revert i s. induction ns as [|number rest IH]; intros i s; [constructor|].
  destruct (forLoop_iteration_step i number rest s) as (-> & _).
  rewrite delays_app. apply Forall_app. split; [apply iteration_delays|apply IH].
Qed.

Lemma forLoop_no_readiness_check ns i s :
  ReadClientInfo ∉ traceOf (forLoop (iteration v j script) i ns s).
Proof.
  revert i s. induction ns as [|number rest IH]; intros i s.
  - cbn [forLoop]. unfold ret, traceOf. simpl. set_solver.
  - destruct (forLoop_iteration_step i number rest s) as (-> & _).
    rewrite elem_of_app. intros [H|H].
    + by apply iteration_no_readiness_check in H.
    + by apply IH in H.
Qed.

End Loop.

(** ** The whole job *)

Section Dispatch.

Variables (v : variant) (j : job) (script : nat -> answers).

Lemma dispatch_run s :
  let r := forLoop (iteration v j script) 0 (numbers j) s in
  traceOf (dispatch v j script s)
  = traceOf r ++ [Emit (Done (sentCount (stateOf r)) (skippedCount (stateOf r))
                         (failedCount (stateOf r)))]
  /\ stateOf (dispatch v j script s) = stateOf r
  /\ completionOf (dispatch v j script s) = Normal tt.
Proof.
  cbv zeta. destruct (forLoop_runs_all v j script (numbers j) 0 s) as (Hc & _).
  unfold dispatch, bind, get, emit, traceOf, stateOf, completionOf in *.
  destruct (forLoop (iteration v j script) 0 (numbers j) s) as [[t s'] c].
  simpl in *. subst c. done.
Qed.

Lemma reportsOn_emitted ns ts :
  Forall2 reportsOn ns ts -> recipientOf <$> emitted (concat ts) = Some <$> ns.
Proof.
  induction 1 as [|number t ns ts (pre & e & post & -> & He & Hpre & Hpost & _) _ IH];
    [done|].
  cbn [concat]. rewrite !emitted_app.
  change (emitted (Emit e :: post)) with (e :: emitted post).
  rewrite Hpre, Hpost. simpl. rewrite He. f_equal. exact IH.
Qed.

Lemma reportsOn_regChecks ns ts :
  Forall2 reportsOn ns ts -> regChecks (concat ts) = chatIdOf <$> ns.
Proof.
  induction 1
    as [|number t ns ts (pre & e & post & -> & _ & _ & _ & Hpre & Hpost & _) _ IH];
    [done|].
  cbn [concat]. rewrite !regChecks_app.
  change (regChecks (Emit e :: post)) with (regChecks post).
  rewrite Hpre, Hpost. simpl. f_equal. exact IH.
Qed.

Lemma no_summary_among_recipients (es : list event) (ns : list jsstring) :
  recipientOf <$> es = Some <$> ns ->
  List.filter (fun e => match e with Done _ _ _ => true | _ => false end) es = [].
Proof.
  revert ns. induction es as [|e es IH]; intros [|n ns] H; try done.
  injection H as He H. simpl. destruct e; try done; by eapply IH.
Qed.

(** The job ends normally whatever the collaborators answer, has checked
    every recipient in turn and counted each once, and emits one summary,
    last. *)
Lemma dispatch_summary s :
  let r := dispatch v j script s in
  let summary := Done (sentCount (stateOf r)) (skippedCount (stateOf r))
                   (failedCount (stateOf r)) in
  completionOf r = Normal tt
  /\ processed (stateOf r) = (processed s + length (numbers j))%nat
  /\ regChecks (traceOf r) = chatIdOf <$> numbers j
  /\ summaries (traceOf r) = [summary]
  /\ last (traceOf r) = Some (Emit summary).
Proof.
  cbv zeta. destruct (dispatch_run s) as (-> & -> & ->).
  destruct (forLoop_runs_all v j script (numbers j) 0 s) as (_ & Hp & ts & Ht & Hts).
  split; [done|]. split; [done|]. split; [|split].
  - rewrite regChecks_app, Ht, (reportsOn_regChecks _ _ Hts). simpl.
    by rewrite app_nil_r.
  - unfold summaries. rewrite emitted_app, List.filter_app, Ht.
    by rewrite (no_summary_among_recipients _ _ (reportsOn_emitted _ _ Hts)).
  - apply last_snoc.
Qed.

Lemma dispatch_delays s :
  Forall (fun ms => ms = msgDelay j) (delays (traceOf (dispatch v j script s))).
Proof.
  destruct (dispatch_run s) as (-> & _). rewrite delays_app.
  apply Forall_app. split; [apply forLoop_delays|constructor].
Qed.

Lemma dispatch_no_readiness_check s :
  ReadClientInfo ∉ traceOf (dispatch v j script s).
Proof.
  destruct (dispatch_run s) as (-> & _). rewrite elem_of_app. intros [H|H].
  - by apply forLoop_no_readiness_check in H.
  - set_solver.
Qed.

End Dispatch.

(** C8. The events of a job come in the order of the recipients: the trace
    is the traces of the iterations one after the other, each with exactly
    one event, about its own recipient and after the calls made for that
    recipient, and then the summary, which is the last thing the job does. *)
Theorem progress_events_in_recipient_order
    (v : variant) (j : job) (script : nat -> answers) (s : state) :
  let r := dispatch v j script s in
  let summary := Done (sentCount (stateOf r)) (skippedCount (stateOf r))
                   (failedCount (stateOf r)) in
  (exists ts, traceOf r = concat ts ++ [Emit summary]
              /\ Forall2 reportsOn (numbers j) ts)
  /\ recipientOf <$> emitted (traceOf r) = (Some <$> numbers j) ++ [None]
  /\ last (traceOf r) = Some (Emit summary).
Proof.
  cbv zeta. destruct (dispatch_run v j script s) as (-> & -> & _).
  destruct (forLoop_runs_all v j script (numbers j) 0 s) as (_ & _ & ts & Ht & Hts).
  split; [|split].
  - exists ts. by rewrite Ht.
  - rewrite emitted_app, fmap_app. simpl. f_equal.
    rewrite Ht. by apply reportsOn_emitted.
  - apply last_snoc.
Qed.

(** ** The handler *)

Section Handler.

Variables (v : variant) (w : world) (r : request).

(** A request is turned down before anything is sent, or it starts the job
    and is answered with the number of recipients. *)
Lemma handle_cases :
  (runJob (handle v w r) = None
   /\ status (runResponse (handle v w r)) <> 200%nat
   /\ runTrace (handle v w r) = guardTrace v)
  \/ (exists numbers,
       reachesValidation v w r
       /\ collectNumbers r = Returns numbers
       /\ payloadMissing (composeMessage v r) (filesMedia r) = false
       /\ let d := dispatch v (jobOf v r numbers) (script w) (initialState w) in
          handle v w r
          = {| runResponse := {| status := 200; body := SendingBody (length numbers) |};
               runTrace := guardTrace v ++ traceOf d;
               runJob := Some (stateOf d, completionOf d) |}).
Proof.
  unfold handle, reachesValidation.
  destruct (match v with Guarded => negb (clientReady w) | Simple => false end) eqn:G.
  { left. by destruct v. }
  destruct (collectNumbers r) as [ns|e] eqn:C; [|left; by destruct v].
  destruct (length ns =? 0)%nat eqn:L; [left; by destruct v|].
  destruct (payloadMissing (composeMessage v r) (filesMedia r)) eqn:P;
    [left; by destruct v|].
  right. exists ns. split; [|split; [done|split; [done|]]].
  - split.
    + intros ->. by destruct (clientReady w).
    + exists ns. split; [done|]. by intros ->.
  - cbv zeta. fold (jobOf v r ns). fold (initialState w). fold (guardTrace v).
    unfold traceOf, stateOf, completionOf.
    by destruct (dispatch v (jobOf v r ns) (script w) (initialState w)) as [[t s] c].
Qed.

End Handler.

(** C10. After the loop the three counters add up to the number of
    normalised recipients, each iteration having added one to exactly one of
    them, and the one summary event, the last thing emitted, reports these
    counters; a delay field that is absent or parses to [NaN] or 0 gives
    2000 ms. *)
Theorem counters_sum_to_total
    (v : variant) (w : world) (r : request) (numbers : list jsstring)
    (s : state) (c : completion unit) :
  collectNumbers r = Returns numbers ->
  runJob (handle v w r) = Some (s, c) ->
  processed s = length numbers
  /\ summaries (runTrace (handle v w r))
     = [Done (sentCount s) (skippedCount s) (failedCount s)]
  /\ last (runTrace (handle v w r))
     = Some (Emit (Done (sentCount s) (skippedCount s) (failedCount s)))
  /\ (forall j script i number s0,
        let s1 := stateOf (iteration v j script i number s0) in
        counters s1 = (S (sentCount s0), skippedCount s0, failedCount s0)
        \/ counters s1 = (sentCount s0, S (skippedCount s0), failedCount s0)
        \/ counters s1 = (sentCount s0, skippedCount s0, S (failedCount s0)))
  /\ effectiveDelay None = 2000%Z
  /\ (forall d, match Js.parseInt d with
                | None | Some 0%Z => effectiveDelay (Some d) = 2000%Z
                | Some _ => True
                end).
Proof.
  intros Hn Hjob.
  destruct (handle_cases v w r) as [(Hnone & _)|(ns & _ & Hns & _ & H)];
    [congruence|].
  cbv zeta in H. rewrite H in Hjob |- *. simpl in *.
  rewrite Hn in Hns. injection Hns as <-. injection Hjob as <- <-.
  destruct (dispatch_summary v (jobOf v r numbers) (script w) (initialState w))
    as (_ & Hp & _ & Hsum & Hlast).
  split; [exact Hp|]. split; [|split; [|split; [|split]]].
  - destruct v; [|exact Hsum]. exact Hsum.
  - destruct v; simpl; [|exact Hlast].
    destruct (traceOf (dispatch Guarded (jobOf Guarded r numbers) (script w)
                         (initialState w))) eqn:E; [done|exact Hlast].
  - intros. apply iteration_bumps_one.
  - reflexivity.
  - intros d. unfold effectiveDelay. simpl.
    destruct (Js.parseInt d) as [[| |]|]; done.
Qed.

(** C4. In a batch of five recipients where the send to the third throws and
    the other four are delivered, the job ends normally after checking all
    five in turn, with 4 sent, 0 skipped and 1 failed, and emits the summary
    once, last. *)
Theorem one_failed_send_is_isolated
    (v : variant) (j : job) (script : nat -> answers) (disk0 : gset jsstring)
    (e : jsstring) :
  length (numbers j) = 5%nat ->
  (forall i, (i < 5)%nat -> i <> 2%nat -> delivers v j (script i)) ->
  reachesSend v j (script 2) ->
  sendMessage (script 2) = Throws e ->
  let r := dispatch v j script
             {| sentCount := 0; skippedCount := 0; failedCount := 0; files := disk0 |} in
  completionOf r = Normal tt
  /\ regChecks (traceOf r) = chatIdOf <$> numbers j
  /\ length (regChecks (traceOf r)) = 5%nat
  /\ counters (stateOf r) = (4, 0, 1)%nat
  /\ summaries (traceOf r) = [Done 4 0 1]
  /\ last (traceOf r) = Some (Emit (Done 4 0 1)).
Proof.
  intros Hlen Hok Hreach Hthrow. cbv zeta.
  set (s0' := {| sentCount := 0; skippedCount := 0; failedCount := 0; files := disk0 |}).
  assert (counters (stateOf (dispatch v j script s0')) = (4, 0, 1)%nat) as Hcount.
  { destruct (dispatch_run v j script s0') as (_ & -> & _).
    destruct (numbers j) as [|n1 [|n2 [|n3 [|n4 [|n5 [|]]]]]]; try discriminate.
    repeat match goal with
           | |- context [stateOf (forLoop _ ?i (?n :: ?rest) ?s)] =>
               destruct (forLoop_iteration_step v j script i n rest s) as (_ & -> & _)
           end.
    cbn [forLoop]. unfold ret at 1. unfold stateOf at 1. simpl fst; simpl snd.
    set (s1 := stateOf (iteration v j script 0 n1 s0')).
    set (s2 := stateOf (iteration v j script 1 n2 s1)).
    set (s3 := stateOf (iteration v j script 2 n3 s2)).
    set (s4 := stateOf (iteration v j script 3 n4 s3)).
    assert (counters s1 = (1, 0, 0)%nat) as [= H1a H1b H1c]
      by (apply iteration_delivers, Hok; lia).
    assert (counters s2 = (2, 0, 0)%nat) as [= H2a H2b H2c].
    { unfold s2. rewrite iteration_delivers by (apply Hok; lia). congruence. }
    assert (counters s3 = (2, 0, 1)%nat) as [= H3a H3b H3c].
    { unfold s3. rewrite (iteration_send_throws _ _ _ _ _ _ e) by done. congruence. }
    assert (counters s4 = (3, 0, 1)%nat) as [= H4a H4b H4c].
    { unfold s4. rewrite iteration_delivers by (apply Hok; lia). congruence. }
    rewrite iteration_delivers by (apply Hok; lia). congruence. }
  destruct (dispatch_summary v j script s0') as (Hc & _ & Hreg & Hsum & Hlast).
  injection Hcount as Hs Hk Hf. rewrite Hs, Hk, Hf in Hsum, Hlast.
  repeat split; try done.
  - by rewrite Hreg, length_fmap.
  - unfold counters. congruence.
Qed.

(** ** Pacing *)

(** The claim of a pause after every iteration does not hold on the skip
    path: with [alice] unregistered and [bob] registered, nothing separates
    the skip event of [alice] from the registration check of [bob], and the
    job pauses once, not twice. *)
Lemma skipped_recipient_is_not_paced :
  let j := textJob [alice; bob] in
  let script := fun i => match i with O => answersUnregistered | _ => answersOk end in
  isRegisteredUser (script O) = Returns false
  /\ traceOf (dispatch Guarded j script freshState)
     = [CallIsRegisteredUser (lit "919876543210@c.us");
        Emit (Skipped alice (Some NotOnWhatsApp));
        CallIsRegisteredUser (lit "919876543211@c.us");
        CallSendMessage (lit "919876543211@c.us") (Text (lit "hi"));
        Emit (Sent 2 2 bob);
        Delay 2000;
        Emit (Done 1 1 0)]
  /\ ~ (forall i number s,
          exists pre, traceOf (iteration Guarded j script i number s)
                      = pre ++ [Delay (msgDelay j)]).
Proof.
  cbv zeta. split; [reflexivity|]. split; [reflexivity|].
  intros H. destruct (H O alice freshState) as [pre Hpre].
  apply (f_equal (@last action)) in Hpre. rewrite last_snoc in Hpre.
  discriminate Hpre.
Qed.

(** C1, as the code has it.  An unregistered recipient is never sent to, and
    its iteration ends by [continue] on the skip event, with no pacing
    delay.  The delay is consumed once, at its end, by every iteration that
    ends as sent or failed, and by no iteration that ends as skipped. *)
Theorem pacing_follows_sent_and_failed_only
    (v : variant) (j : job) (script : nat -> answers) (i : nat)
    (number : jsstring) (s : state) :
  let r := iteration v j script i number s in
  (isRegisteredUser (script i) = Returns false ->
   sends (traceOf r) = [] /\ delays (traceOf r) = []
   /\ completionOf r = Continue
   /\ exists reason, emitted (traceOf r) = [Skipped number reason])
  /\ match emitted (traceOf r) with
     | [Sent _ _ _] | [Failed _ _ _ _] =>
         exists pre, traceOf r = pre ++ [Delay (msgDelay j)] /\ delays pre = []
     | [Skipped _ _] =>
         sends (traceOf r) = [] /\ delays (traceOf r) = []
         /\ completionOf r = Continue
     | _ => False
     end.
Proof.
  cbv zeta. split.
  - intros Hreg. run_iteration. rewrite Hreg. simpl. destruct v; eauto.
  - destruct (iteration_outcomes v j script i number s)
      as [(pre&Ht&He&Hd&_&_&_&_)|[(pre&reason&Ht&->&Hc&_)|(pre&d&Ht&He&Hd&_)]];
      rewrite Ht.
    + destruct (paced_tail (chatIdOf number) pre
                  (Sent (i + 1) (length (numbers j)) number) (msgDelay j) He Hd)
        as [-> H]. exact H.
    + simpl. done.
    + destruct (paced_tail (chatIdOf number) pre
                  (Failed (i + 1) (length (numbers j)) number d) (msgDelay j) He Hd)
        as [-> H]. exact H.
Qed.

(** ** Readiness (first and second version) *)

(** Without the readiness signal the guarded handler answers 400 at once and
    starts nothing. *)
Lemma guarded_rejects_when_not_ready (w : world) (r : request) :
  clientReady w = false ->
  handle Guarded w r = reject 400 "WhatsApp not ready. Please scan QR." [ReadClientInfo].
Proof. intros H. unfold handle. by rewrite H. Qed.

(** The guarded handler looks at the readiness signal once, first, and never
    inside the loop. *)
Lemma guarded_reads_readiness_once (w : world) (r : request) :
  exists t, runTrace (handle Guarded w r) = ReadClientInfo :: t /\ ReadClientInfo ∉ t.
Proof.
  destruct (handle_cases Guarded w r) as [(_ & _ & ->)|(ns & _ & _ & _ & H)].
  - exists []. split; [done|set_solver].
  - cbv zeta in H. rewrite H. simpl. eexists. split; [done|].
    apply dispatch_no_readiness_check.
Qed.

(** C5 on the third version: it has no readiness guard.  With a client that
    is not ready the request is accepted with 200, the job runs and meets a
    failure per recipient; on the same input the guarded versions answer 400
    and start nothing. *)
Theorem simple_starts_job_when_not_ready :
  let w := worldOf false (fun _ => answersNotReady) in
  let r := textRequest "9876543210" None in
  handle Simple w r
  = {| runResponse := {| status := 200; body := SendingBody 1 |};
       runTrace :=
         [CallIsRegisteredUser (lit "919876543210@c.us");
          Emit (Failed 1 1 alice (Some (lit "Cannot read properties of undefined")));
          Delay 2000;
          Emit (Done 0 0 1)];
       runJob := Some ({| sentCount := 0; skippedCount := 0; failedCount := 1;
                          files := ∅ |}, Normal tt) |}
  /\ handle Guarded w r
     = reject 400 "WhatsApp not ready. Please scan QR." [ReadClientInfo].
Proof. split; reflexivity. Qed.

(** ** Send-time media checks (first and second version) *)

(** For a registered recipient the guarded loop checks the attached media
    again: a wrong type, then a size over 16 MiB, is a skip with its own
    event, and nothing is sent. *)
Lemma guarded_rechecks_media
    (j : job) (script : nat -> answers) (i : nat) (number : jsstring)
    (s : state) (m : MediaFile) :
  isRegisteredUser (script i) = Returns true ->
  mediaFile j = Some m ->
  let r := iteration Guarded j script i number s in
  let skipped := {| sentCount := sentCount s; skippedCount := S (skippedCount s);
                    failedCount := failedCount s; files := files s |} in
  (invalidFileType m = true ->
   r = ([CallIsRegisteredUser (chatIdOf number);
         Emit (Skipped number (Some InvalidFileType))], skipped, Continue))
  /\ (invalidFileType m = false -> fileTooBig m = true ->
      r = ([CallIsRegisteredUser (chatIdOf number);
            Emit (Skipped number (Some FileTooBig))], skipped, Continue)).
Proof.
  intros Hreg Hm. cbv zeta. run_iteration. rewrite Hreg, Hm. simpl.
  split; [intros ->|intros -> ->]; reflexivity.
Qed.

(** C7 on the third version: the media is sent as it came.  A PDF of 20 MiB
    goes out to a registered recipient and counts as sent; on the same input
    the guarded versions skip the recipient for the file type. *)
Theorem simple_sends_unchecked_media :
  let w := worldOf true (fun _ => answersOk) in
  let r := mediaRequest "9876543210" bigPdf in
  invalidFileType bigPdf = true /\ fileTooBig bigPdf = true
  /\ runTrace (handle Simple w r)
     = [CallIsRegisteredUser (lit "919876543210@c.us");
        CallSendMessage (lit "919876543210@c.us")
          (MessageMedia (lit "application/pdf") (lit "JVBERi0xLjQ=") (lit "doc.pdf")
             (lit "hi" ++ footer));
        Emit (Sent 1 1 alice);
        Delay 2000;
        Emit (Done 1 0 0)]
  /\ runTrace (handle Guarded w r)
     = [ReadClientInfo;
        CallIsRegisteredUser (lit "919876543210@c.us");
        Emit (Skipped alice (Some InvalidFileType));
        Emit (Done 0 1 0)].
Proof. repeat split; reflexivity. Qed.

(** ** The scratch file (first and second version) *)

(** On a delivery the file is written, read, sent and removed within the
    iteration. *)
Lemma scratch_file_removed_after_delivery
    (j : job) (script : nat -> answers) (i : nat) (number : jsstring)
    (s : state) (m : MediaFile) :
  mediaFile j = Some m ->
  delivers Guarded j (script i) ->
  let r := iteration Guarded j script i number s in
  (exists base64,
      traceOf r
      = [CallIsRegisteredUser (chatIdOf number);
         CallMv (uploadPathOf m);
         CallReadFileSync (uploadPathOf m);
         CallSendMessage (chatIdOf number)
           (MessageMedia (mimetype m) base64 (name m) (message j));
         CallUnlinkSync (uploadPathOf m);
         Emit (Sent (i + 1) (length (numbers j)) number);
         Delay (msgDelay j)])
  /\ uploadPathOf m ∉ files (stateOf r).
Proof.
  intros Hm ((Hreg & Hreach) & Hsend & Hunlink). cbv zeta.
  simpl in Hreach, Hunlink. rewrite Hm in Hreach, Hunlink.
  destruct Hreach as (Hty & Hsz & Hmv & b & Hread).
  run_iteration. rewrite Hreg, Hm. simpl. rewrite Hty, Hsz, Hmv, Hread. simpl.
  rewrite Hsend, Hunlink. simpl. split; [eauto|set_solver].
Qed.

(** C2 at a send that throws: the file written for the send is never
    removed.  [unlinkSync] stands after [sendMessage] inside the [try], the
    [catch] does not remove the file and there is no [finally]. *)
Theorem scratch_file_left_behind_when_send_throws :
  let w := worldOf true (fun _ => answersSendThrows) in
  let r := mediaRequest "9876543210" photo in
  runTrace (handle Guarded w r)
  = [ReadClientInfo;
     CallIsRegisteredUser (lit "919876543210@c.us");
     CallMv (lit "uploads/photo.png");
     CallReadFileSync (lit "uploads/photo.png");
     CallSendMessage (lit "919876543210@c.us")
       (MessageMedia (lit "image/png") (lit "iVBORw0KGgo=") (lit "photo.png") (lit "hi"));
     Emit (Failed 1 1 alice None);
     Delay 2000;
     Emit (Done 0 0 1)]
  /\ unlinks (runTrace (handle Guarded w r)) = []
  /\ (lit "uploads/photo.png" ∉ disk w)
  /\ exists s, runJob (handle Guarded w r) = Some (s, Normal tt)
               /\ lit "uploads/photo.png" ∈ files s.
Proof.
  cbv zeta. split; [reflexivity|]. split; [reflexivity|]. split; [set_solver|].
  eexists. split; [reflexivity|]. simpl. set_solver.
Qed.

(** ** Payload validation *)

Lemma payloadMissing_blank (message : jsstring) (media : option MediaFile) :
  payloadMissing message media = true
  <-> (forall c, c ∈ message -> Js.isWhiteSpace c = true) /\ media = None.
Proof.
  unfold payloadMissing. rewrite andb_true_iff, negb_true_iff, truthy_false, trim_nil.
  rewrite forallb_forall.
  split; intros [Hm Hf]; (split; [|by destruct media]).
  - intros c Hc. apply Hm. by apply list_elem_of_In.
  - intros c Hc. apply Hm. by apply list_elem_of_In.
Qed.

(** The message of the third version is never blank: the footer ends in a
    slash. *)
Lemma simple_message_never_blank (r : request) (media : option MediaFile) :
  payloadMissing (composeMessage Simple r) media = false.
Proof.
  apply not_true_is_false. intros [H _]%payloadMissing_blank.
  assert (Js.isWhiteSpace 47%N = true) as Hslash; [|discriminate Hslash].
  apply H. unfold composeMessage, footer. rewrite !elem_of_app. right.
  do 5 right. unfold lit. simpl. set_solver.
Qed.

Lemma handle_payload_error (v : variant) (w : world) (r : request) :
  (runResponse (handle v w r) = messageOrMediaRequired
   <-> reachesValidation v w r
       /\ payloadMissing (composeMessage v r) (filesMedia r) = true)
  /\ (reachesValidation v w r ->
      runJob (handle v w r) = None ->
      payloadMissing (composeMessage v r) (filesMedia r) = true).
Proof.
  unfold handle, reachesValidation.
  destruct (match v with Guarded => negb (clientReady w) | Simple => false end) eqn:G.
  { assert (~ (v = Guarded -> clientReady w = true)) as Hno.
    { intros H. destruct v; [|done]. rewrite H in G; done. }
    split; [split; [discriminate|by intros [[? _] _]]|by intros [? _]]. }
  destruct (collectNumbers r) as [ns|e] eqn:C.
  2:{ split; [split; [discriminate|by intros [[_ (ns & ? & _)] _]]
             |by intros [_ (ns & ? & _)]]. }
  destruct (length ns =? 0)%nat eqn:L.
  { destruct ns; [|done].
    split; [split; [discriminate|by intros [[_ (ns' & [= <-] & ?)] _]]
           |by intros [_ (ns' & [= <-] & ?)]]. }
  destruct (payloadMissing (composeMessage v r) (filesMedia r)) eqn:P.
  - split; [|done]. split; [|done]. intros _. split; [|done]. split.
    + intros ->. by destruct (clientReady w).
    + exists ns. split; [done|]. by intros ->.
  - destruct (dispatch _ _ _ _) as [[t s] c].
    split; [split; [discriminate|by intros [_ ?]]|done].
Qed.

(** C6. The handler answers 400 "Message or media is required." exactly when
    the request got as far as this check and the final message is empty or
    white space only and no media is attached; then no job is started.  With
    a message that is not blank, or with a media, this error is not given. *)
Theorem payload_validator_gate (v : variant) (w : world) (r : request) :
  (forall message media,
      payloadMissing message media = true
      <-> (forall c, c ∈ message -> Js.isWhiteSpace c = true) /\ media = None)
  /\ (runResponse (handle v w r) = messageOrMediaRequired
      <-> reachesValidation v w r
          /\ (forall c, c ∈ composeMessage v r -> Js.isWhiteSpace c = true)
          /\ filesMedia r = None)
  /\ (runResponse (handle v w r) = messageOrMediaRequired
      <-> reachesValidation v w r /\ runJob (handle v w r) = None)
  /\ payloadMissing [] None = true
  /\ payloadMissing [] (Some photo) = false
  /\ payloadMissing (lit "hi") None = false.
Proof.
  destruct (handle_payload_error v w r) as [Herr Hjob].
  split; [apply payloadMissing_blank|].
  split; [|split; [|done]].
  - by rewrite <- payloadMissing_blank.
  - rewrite Herr. split.
    + intros [Hreach Hmissing]. split; [done|].
      destruct (handle_cases v w r) as [(? & _)|(ns & _ & _ & Hp & _)];
        [done|congruence].
    + intros [Hreach Hnone]. auto.
Qed.

(** ** The pacing delay *)

(** The effective delay is not the floor-clamp of the requested value, and
    the job can pace faster than the minimum.  A requested delay of "0"
    gives 2000 ms, not the 1500 ms that clamping 0 would give: [0 || 2000]
    is 2000.  A requested delay of "3000000000" is handed to the timer as it
    is, line 115 has no ceiling, and the timer then waits 1 ms. *)
Lemma requested_delay_is_not_floor_clamped :
  (Js.parseInt (lit "0") = Some 0%Z
   /\ effectiveDelay (Some (lit "0")) = 2000%Z
   /\ effectiveDelay (Some (lit "0")) <> Z.max 0 1500)
  /\ (Js.parseInt (lit "3000000000") = Some 3000000000%Z
      /\ effectiveDelay (Some (lit "3000000000")) = 3000000000%Z
      /\ timerPause (effectiveDelay (Some (lit "3000000000"))) = 1%Z
      /\ (timerPause (effectiveDelay (Some (lit "3000000000"))) < 1500)%Z).
Proof. repeat split; done. Qed.

(** C9, as the code has it.  The number handed to the timer is never below
    1500 and is the same for every pause of a job.  It is 2000 when the
    delay field is absent, unreadable or 0; when [parseInt] reads from it an
    integer that is not 0 and at most 2147483647, it is the larger of that
    integer and 1500, and the timer waits exactly that long: "500" gives
    1500, "5000" gives 5000.  Above 2147483647 the number handed over is
    above it too, and nothing is said of the wait. *)
Theorem pacing_floor (v : variant) (w : world) (r : request) :
  (1500 <= effectiveDelay (bodyDelay r))%Z
  /\ Forall (fun ms => ms = effectiveDelay (bodyDelay r) /\ (1500 <= ms)%Z)
       (delays (runTrace (handle v w r)))
  /\ (forall d,
        let ms := effectiveDelay (Some d) in
        match Js.parseInt d with
        | Some z =>
            if (z =? 0)%Z then ms = 2000%Z /\ timerPause ms = 2000%Z
            else if (z <=? 2147483647)%Z
                 then ms = Z.max z 1500 /\ timerPause ms = Z.max z 1500
                      /\ (1500 <= timerPause ms)%Z
                 else (2147483647 < ms)%Z
        | None => ms = 2000%Z /\ timerPause ms = 2000%Z
        end)
  /\ (effectiveDelay None = 2000%Z /\ timerPause (effectiveDelay None) = 2000%Z)
  /\ (effectiveDelay (Some (lit "500")) = 1500%Z
      /\ timerPause (effectiveDelay (Some (lit "500"))) = 1500%Z)
  /\ (effectiveDelay (Some (lit "5000")) = 5000%Z
      /\ timerPause (effectiveDelay (Some (lit "5000"))) = 5000%Z).
Proof.
  assert (forall d, 1500 <= effectiveDelay d)%Z as Hfloor
    by (intros d; unfold effectiveDelay; lia).
  split; [apply Hfloor|]. split; [|split; [|done]].
  - destruct (handle_cases v w r) as [(_ & _ & ->)|(ns & _ & _ & _ & H)].
    { destruct v; constructor. }
    cbv zeta in H. rewrite H. simpl. rewrite delays_app.
    apply Forall_app. split; [destruct v; constructor|].
    eapply Forall_impl; [apply dispatch_delays|].
    simpl. intros ms ->. split; [done|apply Hfloor].
  - intros d. cbv zeta. unfold effectiveDelay.
    change (default (lit "undefined") (Some d)) with d.
    destruct (Js.parseInt d) as [z|]; [|done].
    destruct (Z.eqb_spec z 0) as [->|Hz]; [done|].
    assert (orElse (Some z) 2000 = z) as -> by (by destruct z).
    destruct (Z.leb_spec z 2147483647) as [Hle|Hgt]; [|lia].
    assert (timerPause (Z.max z 1500) = Z.max z 1500) as ->; [|lia].
    unfold timerPause.
    destruct (Z.ltb_spec 2147483647 (Z.max z 1500)); [lia|].
    destruct (Z.ltb_spec (Z.max z 1500) 1); [lia|done].
Qed.

(** ** Worked instances *)

Lemma normalizeNumbers_canonical_set_witness :
  exists entry,
    entry ∈ [lit "9876543210"; lit "919876543210"; lit "+919876543210"]
    /\ canonical entry (Some (lit "+919876543210")).
Proof.
  apply (proj1 (proj2 (normalizeNumbers_canonical_set
                         [lit "9876543210"; lit "919876543210"; lit "+919876543210"]))).
  apply list_elem_of_In. simpl. left. reflexivity.
Defined.

Lemma pacing_follows_sent_and_failed_only_witness :
  let r := iteration Guarded (textJob [alice; bob]) mixedScript 1 bob freshState in
  sends (traceOf r) = [] /\ delays (traceOf r) = []
  /\ completionOf r = Continue
  /\ exists reason, emitted (traceOf r) = [Skipped bob reason].
Proof.
  apply (pacing_follows_sent_and_failed_only
           Guarded (textJob [alice; bob]) mixedScript 1 bob freshState).
  reflexivity.
Defined.

Lemma one_failed_send_is_isolated_witness :
  let r := dispatch Guarded (textJob fiveNumbers) thirdThrows freshState in
  completionOf r = Normal tt
  /\ regChecks (traceOf r) = chatIdOf <$> fiveNumbers
  /\ length (regChecks (traceOf r)) = 5
  /\ counters (stateOf r) = (4, 0, 1)
  /\ summaries (traceOf r) = [Done 4 0 1]
  /\ last (traceOf r) = Some (Emit (Done 4 0 1)).
Proof.
  apply (one_failed_send_is_isolated Guarded (textJob fiveNumbers) thirdThrows ∅
           (lit "Evaluation failed")).
  - reflexivity.
  - intros i Hi Hne.
    destruct i as [|[|[|[|[|i]]]]]; try (exfalso; lia); repeat split.
  - repeat split.
  - reflexivity.
Defined.

Lemma payload_validator_gate_witness :
  reachesValidation Guarded (worldOf true (fun _ => answersOk)) blankRequest
  /\ (forall c, c ∈ composeMessage Guarded blankRequest -> Js.isWhiteSpace c = true)
  /\ filesMedia blankRequest = None.
Proof.
  apply (proj1 (proj1 (proj2 (payload_validator_gate
                                Guarded (worldOf true (fun _ => answersOk)) blankRequest)))).
  reflexivity.
Defined.

Lemma counters_sum_to_total_witness :
  processed {| sentCount := 1; skippedCount := 1; failedCount := 1; files := ∅ |} = 3.
Proof.
  apply (proj1 (counters_sum_to_total Guarded (worldOf true mixedScript)
                  (textRequest "9876543210, 919876543211,+91 98765-43212" None)
                  [lit "+919876543210"; lit "+919876543211"; lit "+919876543212"]
                  _ (Normal tt) eq_refl eq_refl)).
Defined.

(** * Further properties of the handler *)

(** Case analysis of a run of the loop body, in program order: a condition
    is split only when nothing inside it is still to be split. *)
Ltac split_innermost :=
  repeat match goal with
         | |- context [match ?x with _ => _ end] =>
             lazymatch x with
             | context [match _ with _ => _ end] => fail
             | _ => destruct x eqn:?; simpl
             end
         end.

Section IterationDetails.

Variables (v : variant) (j : job) (script : nat -> answers).
Variables (i : nat) (number : jsstring) (s : state).

(** An iteration calls [sendMessage] at most once, for its own recipient,
    and with the message of the job. *)
Lemma iteration_sends_once :
  let t := traceOf (iteration v j script i number s) in
  (sends t = [] \/ sends t = [chatIdOf number])
  /\ Forall (fun c => contentText c = message j) (contents t).
Proof.
  run_iteration. unfold sends, contents.
  destruct v; run_iteration; split_innermost; split; auto; repeat constructor.
Qed.

(** The event of an iteration is the one its counter and its pause go
    with: one more sent, skipped or failed for a sent, skip or failed event,
    and one pause for a sent or failed event. *)
Lemma iteration_tally :
  let r := iteration v j script i number s in
  let es := emitted (traceOf r) in
  sentCount (stateOf r) = (sentCount s + countWhere isSent es)%nat
  /\ skippedCount (stateOf r) = (skippedCount s + countWhere isSkipped es)%nat
  /\ failedCount (stateOf r) = (failedCount s + countWhere isFailed es)%nat
  /\ length (delays (traceOf r))
     = (countWhere isSent es + countWhere isFailed es)%nat.
Proof.
  run_iteration. unfold emitted, delays, countWhere.
  destruct v; run_iteration; split_innermost; repeat split; lia.
Qed.

(** The event of iteration [i] carries [i + 1] over the number of
    recipients, and the recipient of the iteration. *)
Lemma iteration_indexed :
  numbers j !! i = Some number ->
  Forall (indexed (numbers j)) (emitted (traceOf (iteration v j script i number s))).
Proof.
  intros Hi. assert (number ∈ numbers j) by (eapply list_elem_of_lookup_2; eauto).
  run_iteration. unfold emitted.
  destruct v; run_iteration; split_innermost; repeat constructor; eauto.
Qed.

(** An iteration touches one path at most, the scratch file of the attached
    media, and only in the first two versions. *)
Lemma iteration_frame :
  let r := iteration v j script i number s in
  match v, mediaFile j with
  | Guarded, Some m =>
      Forall (fun p => p = uploadPathOf m) (fsCalls (traceOf r))
      /\ forall p, p <> uploadPathOf m -> p ∈ files (stateOf r) <-> p ∈ files s
  | _, _ => fsCalls (traceOf r) = [] /\ files (stateOf r) = files s
  end.
Proof.
  run_iteration. unfold fsCalls.
  destruct v; run_iteration; split_innermost; split;
    first [done | by repeat constructor | set_solver].
Qed.

End IterationDetails.

Lemma countWhere_app p es1 es2 :
  countWhere p (es1 ++ es2) = (countWhere p es1 + countWhere p es2)%nat.
Proof. unfold countWhere. by rewrite List.filter_app, length_app. Qed.

Lemma contents_app t1 t2 : contents (t1 ++ t2) = contents t1 ++ contents t2.
Proof. apply omap_app. Qed.

Lemma fsCalls_app t1 t2 : fsCalls (t1 ++ t2) = fsCalls t1 ++ fsCalls t2.
Proof. apply omap_app. Qed.

Section LoopDetails.

Variables (v : variant) (j : job) (script : nat -> answers).

Lemma forLoop_tally ns i s :
  let r := forLoop (iteration v j script) i ns s in
  let es := emitted (traceOf r) in
  sentCount (stateOf r) = (sentCount s + countWhere isSent es)%nat
  /\ skippedCount (stateOf r) = (skippedCount s + countWhere isSkipped es)%nat
  /\ failedCount (stateOf r) = (failedCount s + countWhere isFailed es)%nat
  /\ length (delays (traceOf r))
     = (countWhere isSent es + countWhere isFailed es)%nat.
Proof.
  revert i s. induction ns as [|number rest IH]; intros i s.
  - cbn [forLoop]. unfold ret, traceOf, stateOf. simpl.
    unfold countWhere. simpl. lia.
  - cbv zeta. destruct (forLoop_iteration_step v j script i number rest s)
      as (-> & -> & _).
    destruct (iteration_tally v j script i number s) as (H1 & H2 & H3 & H4).
    destruct (IH (S i) (stateOf (iteration v j script i number s)))
      as (K1 & K2 & K3 & K4).
    rewrite emitted_app, delays_app, length_app, !countWhere_app. lia.
Qed.

Lemma forLoop_indexed front ns s :
  numbers j = front ++ ns ->
  Forall (indexed (numbers j))
    (emitted (traceOf (forLoop (iteration v j script) (length front) ns s))).
Proof.
  revert front s. induction ns as [|number rest IH]; intros front s Hj.
  - constructor.
  - destruct (forLoop_iteration_step v j script (length front) number rest s)
      as (-> & _).
    rewrite emitted_app. apply Forall_app. split.
    + apply iteration_indexed. rewrite Hj. by apply list_lookup_middle.
    + specialize (IH (front ++ [number])). rewrite length_app in IH. simpl in IH.
      rewrite Nat.add_1_r in IH. apply IH. by rewrite <- app_assoc.
Qed.

Lemma forLoop_sends ns i s :
  let t := traceOf (forLoop (iteration v j script) i ns s) in
  sends t `sublist_of` (chatIdOf <$> ns)
  /\ Forall (fun c => contentText c = message j) (contents t).
Proof.
  revert i s. induction ns as [|number rest IH]; intros i s.
  - cbn [forLoop]. unfold ret, traceOf. simpl. split; constructor.
  - cbv zeta. destruct (forLoop_iteration_step v j script i number rest s)
      as (-> & _).
    destruct (iteration_sends_once v j script i number s) as (H1 & H2).
    destruct (IH (S i) (stateOf (iteration v j script i number s))) as (K1 & K2).
    rewrite sends_app, contents_app. split; [|by apply Forall_app].
    rewrite fmap_cons. destruct H1 as [-> | ->]; simpl.
    + by apply sublist_cons.
    + by apply sublist_skip.
Qed.

Lemma forLoop_frame ns i s :
  let r := forLoop (iteration v j script) i ns s in
  match v, mediaFile j with
  | Guarded, Some m =>
      Forall (fun p => p = uploadPathOf m) (fsCalls (traceOf r))
      /\ forall p, p <> uploadPathOf m -> p ∈ files (stateOf r) <-> p ∈ files s
  | _, _ => fsCalls (traceOf r) = [] /\ files (stateOf r) = files s
  end.
Proof.
  revert i s. induction ns as [|number rest IH]; intros i s.
  - cbn [forLoop]. unfold ret, traceOf, stateOf. simpl.
    destruct v, (mediaFile j); done.
  - cbv zeta. destruct (forLoop_iteration_step v j script i number rest s)
      as (-> & -> & _).
    pose proof (iteration_frame v j script i number s) as H.
    pose proof (IH (S i) (stateOf (iteration v j script i number s))) as K.
    cbv zeta in H, K. rewrite fsCalls_app.
    destruct v, (mediaFile j) as [m|];
      try (destruct H as [-> H], K as [-> K]; split; [done|congruence]).
    destruct H as [H1 H2], K as [K1 K2]. split; [by apply Forall_app|].
    intros p Hp. by rewrite K2, H2.
Qed.

End LoopDetails.

(** ** The normalised recipients *)

Lemma stripNonDigits_digits s : forallb Js.isDigit (Js.stripNonDigits s) = true.
Proof.
  apply forallb_forall. intros c Hc. by apply filter_In in Hc as [_ ?].
Qed.

Lemma stripNonDigits_id s : forallb Js.isDigit s = true -> Js.stripNonDigits s = s.
Proof.
  induction s as [|c s IH]; simpl; [done|].
  intros [Hc Hs]%andb_true_iff. rewrite Hc. f_equal. by apply IH.
Qed.

Lemma forallb_skipn (p : N -> bool) k s :
  forallb p s = true -> forallb p (skipn k s) = true.
Proof.
  rewrite !forallb_forall. intros H c Hc. apply H.
  rewrite <- (firstn_skipn k s). apply in_or_app. by right.
Qed.

(** X1. Every id of the normalised list is "+91" followed by at least eight
    digits and nothing else. *)
Theorem normalized_id_shape (raw : list jsstring) (id : jsstring) :
  id ∈ normalizeNumbers raw ->
  exists rest, id = lit "+91" ++ rest
               /\ forallb Js.isDigit rest = true
               /\ (8 <= length rest)%nat.
Proof.
  intros (entry & _ & H)%normalizeNumbers_elem. unfold entryId in H.
  pose proof (stripNonDigits_digits entry) as Hd.
  destruct (Nat.leb_spec 10 (length (Js.stripNonDigits entry))) as [Hlen|]; [|done].
  injection H as <-. unfold addCountryCode.
  destruct (Js.startsWith (lit "91") (Js.stripNonDigits entry)) eqn:E.
  - apply startsWith_prefix in E as [rest Hrest]. exists rest.
    rewrite Hrest in Hd, Hlen |- *. rewrite forallb_app in Hd.
    apply andb_true_iff in Hd as [_ Hd]. rewrite length_app in Hlen.
    split; [done|]. split; [done|]. simpl in Hlen. lia.
  - exists (Js.sliceLast 10 (Js.stripNonDigits entry)). split; [done|]. split.
    + by apply forallb_skipn.
    + destruct (sliceLast_split 10 (Js.stripNonDigits entry)) as (_ & _ & ->); lia.
Qed.

Lemma uniqFrom_fresh seen l :
  NoDup l -> (forall x, x ∈ l -> x ∉ seen) -> Js.uniqFrom seen l = l.
Proof.
  revert seen. induction l as [|x l IH]; intros seen Hnd Hfresh; simpl; [done|].
  apply NoDup_cons in Hnd as [Hx Hnd].
  destruct (Js.mem x seen) eqn:E.
  { apply mem_spec in E. destruct (Hfresh x); [set_solver|done]. }
  f_equal. apply IH; [done|]. intros y Hy. specialize (Hfresh y). set_solver.
Qed.

Lemma normalized_id_fixed id rest :
  id = lit "+91" ++ rest -> forallb Js.isDigit rest = true -> (8 <= length rest)%nat ->
  entryId id = Some id.
Proof.
  intros -> Hd Hlen. unfold entryId.
  assert (Js.stripNonDigits (lit "+91" ++ rest) = lit "91" ++ rest) as ->.
  { replace (lit "+91") with [43; 57; 49]%N by reflexivity.
    replace (lit "91") with [57; 49]%N by reflexivity.
    unfold Js.stripNonDigits. simpl. do 2 f_equal. by apply stripNonDigits_id. }
  rewrite length_app. change (length (lit "91")) with 2%nat.
  destruct (Nat.leb_spec 10 (2 + length rest)); [|lia].
  unfold addCountryCode.
  assert (Js.startsWith (lit "91") (lit "91" ++ rest) = true) as ->
    by (apply startsWith_prefix; eauto).
  done.
Qed.

Lemma normalize_pipeline_omap l :
  List.map addCountryCode
    (List.filter (fun n => (10 <=? length n)%nat) (List.map Js.stripNonDigits l))
  = omap entryId l.
Proof.
  induction l as [|x l IH]; [done|].
  change (omap entryId (x :: l))
    with (match entryId x with Some y => y :: omap entryId l | None => omap entryId l end).
  rewrite <- IH. cbn [List.map List.filter]. unfold entryId.
  by destruct (10 <=? length (Js.stripNonDigits x))%nat.
Qed.

(** X2. Normalising a normalised list gives it back. *)
Theorem normalizeNumbers_idempotent (raw : list jsstring) :
  normalizeNumbers (normalizeNumbers raw) = normalizeNumbers raw.
Proof.
  assert (forall l : list jsstring,
             (forall id, id ∈ l -> entryId id = Some id) -> omap entryId l = l)
    as Hfix.
  { induction l as [|x l IH]; intros H; [done|].
    change (omap entryId (x :: l))
      with (match entryId x with Some y => y :: omap entryId l | None => omap entryId l end).
    rewrite (H x) by set_solver. f_equal. apply IH. intros; apply H; set_solver. }
  unfold normalizeNumbers at 1. rewrite normalize_pipeline_omap, Hfix.
  - apply uniqFrom_fresh; [apply uniq_NoDup|set_solver].
  - intros id (rest & Hid & Hd & Hlen)%normalized_id_shape.
    by eapply normalized_id_fixed.
Qed.

Lemma uniqFrom_snoc seen l x :
  Js.uniqFrom seen (l ++ [x])
  = Js.uniqFrom seen l ++ (if decide (x ∈ seen \/ x ∈ l) then [] else [x]).
Proof.
  revert seen. induction l as [|y l IH]; intros seen; simpl.
  - destruct (Js.mem x seen) eqn:E.
    + apply mem_spec in E. destruct (decide _) as [|H]; [done|]. destruct H; auto.
    + destruct (decide _) as [[H|H]|]; [|set_solver|done].
      apply mem_spec in H. congruence.
  - destruct (Js.mem y seen) eqn:E; simpl; rewrite IH.
    + apply mem_spec in E.
      destruct (decide (x ∈ seen \/ x ∈ l)), (decide (x ∈ seen \/ x ∈ y :: l));
        try done; set_solver.
    + f_equal.
      destruct (decide (x ∈ y :: seen \/ x ∈ l)), (decide (x ∈ seen \/ x ∈ y :: l));
        try done; set_solver.
Qed.

(** X3. Recipients keep the order of their first appearance: an entry added
    at the end of the input adds its id at the end of the list, unless the
    entry is dropped or the id is there already, and changes nothing
    before. *)
Theorem normalizeNumbers_snoc (raw : list jsstring) (entry : jsstring) :
  normalizeNumbers (raw ++ [entry])
  = match entryId entry with
    | Some id =>
        if decide (id ∈ normalizeNumbers raw) then normalizeNumbers raw
        else normalizeNumbers raw ++ [id]
    | None => normalizeNumbers raw
    end.
Proof.
  unfold normalizeNumbers. rewrite !normalize_pipeline_omap, omap_app. simpl.
  destruct (entryId entry) as [id|]; simpl; [|by rewrite app_nil_r].
  unfold Js.uniq. rewrite uniqFrom_snoc.
  destruct (decide (id ∈ [] \/ id ∈ omap entryId raw)) as [[H|H]|H],
    (decide (id ∈ Js.uniqFrom [] (omap entryId raw))) as [K|K];
    try done; try set_solver.
  - by rewrite app_nil_r.
  - destruct K. apply uniqFrom_elem. set_solver.
  - destruct H. right. by apply uniqFrom_elem in K as [? _].
Qed.

(** ** The two sources of numbers *)

Lemma white_not_digit c : Js.isWhiteSpace c = true -> Js.isDigit c = false.
Proof.
  unfold Js.isWhiteSpace, Js.isDigit. intros H.
  apply andb_false_iff. rewrite !N.leb_gt.
  repeat (apply orb_true_iff in H as [H|H]);
    rewrite ?andb_true_iff, ?N.leb_le, ?N.eqb_eq in H; lia.
Qed.

Lemma strip_dropWhile_white s :
  Js.stripNonDigits (Js.dropWhile Js.isWhiteSpace s) = Js.stripNonDigits s.
Proof.
  induction s as [|c s IH]; simpl; [done|].
  destruct (Js.isWhiteSpace c) eqn:E; [|done].
  by rewrite (white_not_digit c E).
Qed.

Lemma strip_rev s : Js.stripNonDigits (rev s) = rev (Js.stripNonDigits s).
Proof.
  unfold Js.stripNonDigits. induction s as [|c s IH]; simpl; [done|].
  rewrite List.filter_app, IH. simpl. destruct (Js.isDigit c); simpl; [done|].
  by rewrite app_nil_r.
Qed.

(** Trimming removes no digit. *)
Lemma strip_trim s : Js.stripNonDigits (Js.trim s) = Js.stripNonDigits s.
Proof.
  unfold Js.trim.
  by rewrite strip_rev, strip_dropWhile_white, strip_rev, rev_involutive,
    strip_dropWhile_white.
Qed.

Lemma entryId_trim s : entryId (Js.trim s) = entryId s.
Proof. unfold entryId. by rewrite strip_trim. Qed.

Lemma split_nonempty sep s : Js.split sep s <> [].
Proof. destruct s as [|c s]; simpl; [done|]. destruct (c =? sep)%N; [done|].
  by destruct (Js.split sep s). Qed.

(** X4. [split] cuts at every separator and nowhere else: joining the pieces
    with the separator gives the string back, no piece holds a separator,
    and there is one piece more than there are separators. *)
Theorem split_join (sep : N) (s : jsstring) :
  join sep (Js.split sep s) = s
  /\ Forall (fun piece => sep ∉ piece) (Js.split sep s)
  /\ length (Js.split sep s) = S (length (List.filter (N.eqb sep) s)).
Proof.
  induction s as [|c s (IHj & IHf & IHl)].
  - split; [done|]. split; [|done]. repeat constructor. set_solver.
  - cbn [Js.split List.filter]. rewrite (N.eqb_sym sep c).
    pose proof (split_nonempty sep s).
    destruct (Js.split sep s) as [|p ps] eqn:E; [done|].
    destruct (N.eqb_spec c sep) as [->|Hne].
    + change (join sep ([] :: p :: ps)) with (sep :: join sep (p :: ps)).
      rewrite IHj. split; [done|]. split; [|simpl in *; by rewrite IHl].
      constructor; [set_solver|done].
    + apply Forall_cons in IHf as [Hp Hps]. split; [|split; [|done]].
      * rewrite <- IHj. by destruct ps.
      * constructor; [|done]. set_solver.
Qed.

Lemma split_chars sep s piece c :
  piece ∈ Js.split sep s -> c ∈ piece -> c ∈ s.
Proof.
  revert piece. induction s as [|x s IH]; cbn [Js.split]; intros piece Hp Hc.
  - apply list_elem_of_singleton in Hp as ->. by apply elem_of_nil in Hc.
  - pose proof (split_nonempty sep s).
    destruct (Js.split sep s) as [|p ps]; [done|].
    destruct (x =? sep)%N.
    + apply elem_of_cons in Hp as [->|Hp]; [by apply elem_of_nil in Hc|].
      apply elem_of_cons. right. eauto.
    + apply elem_of_cons in Hp as [->|Hp].
      * apply elem_of_cons in Hc as [->|Hc]; apply elem_of_cons; [by left|right].
        apply (IH p); [apply elem_of_cons; by left|done].
      * apply elem_of_cons. right. apply (IH piece); [|done].
        apply elem_of_cons. by right.
Qed.

Lemma normalizeNumbers_app_elem l1 l2 id :
  id ∈ normalizeNumbers (l1 ++ l2)
  <-> id ∈ normalizeNumbers l1 \/ id ∈ normalizeNumbers l2.
Proof. rewrite !normalizeNumbers_elem. set_solver. Qed.

(** X5. The ids the text area gives are those of the pieces between its
    commas: the white space around a piece plays no part, and a field that is
    absent or blank gives none. *)
Theorem textarea_ids (r : request) (id : jsstring) :
  id ∈ normalizeNumbers (textareaNumbers r)
  <-> exists s piece,
        bodyNumbers r = Some s /\ piece ∈ Js.split 44 s
        /\ canonical piece (Some id).
Proof.
  rewrite normalizeNumbers_elem. unfold textareaNumbers.
  destruct (bodyNumbers r) as [s|]; [|split; [set_solver|by intros (?&?&?&_)]].
  destruct (Js.truthy (Js.trim s)) eqn:T.
  - split.
    + intros (entry & Hin & H). apply list_elem_of_In, in_map_iff in Hin
        as (piece & <- & Hin). rewrite entryId_trim in H.
      exists s, piece. split; [done|]. split; [by apply list_elem_of_In|].
      by apply canonical_entryId.
    + intros (s' & piece & [= <-] & Hin & H). exists (Js.trim piece).
      split; [apply list_elem_of_In, in_map; by apply list_elem_of_In|].
      rewrite entryId_trim. by apply canonical_entryId in H.
  - apply truthy_false, trim_nil in T. split; [set_solver|].
    intros (s' & piece & [= <-] & Hin & H). exfalso.
    apply canonical_entryId in H. unfold entryId in H.
    destruct (Js.stripNonDigits piece) as [|c d] eqn:E; [done|].
    assert (c ∈ Js.stripNonDigits piece) as Hc by (rewrite E; set_solver).
    apply list_elem_of_In, filter_In in Hc as [Hc Hdig].
    apply list_elem_of_In in Hc.
    pose proof (split_chars 44 s piece c Hin Hc) as Hs.
    rewrite forallb_forall in T. apply list_elem_of_In, T, white_not_digit in Hs.
    congruence.
Qed.

(** X6. [cells] are the values [String(row[Object.keys(row)[0]] || "")] of
    line 85, one for each row object [sheet_to_json] returns: the value under
    the first key of the row, whichever column that is.  Such a value gives
    an id exactly when, trimmed, it is made of digits only and has at least
    ten of them; a value with any other character is dropped, where the text
    area would keep its digits. *)
Theorem excel_ids (cells : list jsstring) (id : jsstring) :
  id ∈ normalizeNumbers (excelNumbers cells)
  <-> exists cell,
        cell ∈ cells /\ forallb Js.isDigit (Js.trim cell) = true
        /\ (10 <= length (Js.trim cell))%nat
        /\ id = addCountryCode (Js.trim cell).
Proof.
  rewrite normalizeNumbers_elem. unfold excelNumbers, entryId. split.
  - intros (entry & Hin & H).
    apply list_elem_of_In, filter_In in Hin as [Hin Hd].
    apply in_map_iff in Hin as (cell & <- & Hin).
    apply andb_true_iff in Hd as [_ Hd]. rewrite stripNonDigits_id in H by done.
    destruct (Nat.leb_spec 10 (length (Js.trim cell))); [|done].
    injection H as <-. exists cell. by rewrite list_elem_of_In.
  - intros (cell & Hin & Hd & Hlen & ->). exists (Js.trim cell). split.
    + apply list_elem_of_In, filter_In. split.
      * apply in_map. by apply list_elem_of_In.
      * unfold Js.allDigits. rewrite Hd. destruct (Js.trim cell); [simpl in Hlen; lia|done].
    + rewrite stripNonDigits_id by done.
      by destruct (Nat.leb_spec 10 (length (Js.trim cell))); [|lia].
Qed.

(** ** Requests as a whole *)

Lemma collectNumbers_entries r ns :
  collectNumbers r = Returns ns -> ns = normalizeNumbers (requestEntries r).
Proof.
  unfold collectNumbers, requestEntries.
  destruct (filesExcel r) as [[cells|e]|]; intros [= <-]; [done|].
  by rewrite app_nil_r.
Qed.

(** What a started job looks like from outside. *)
Lemma handle_started v w r s c :
  runJob (handle v w r) = Some (s, c) ->
  exists ns,
    collectNumbers r = Returns ns /\ ns <> []
    /\ let loop := forLoop (iteration v (jobOf v r ns) (script w)) 0 ns
                     (initialState w) in
       runTrace (handle v w r)
       = guardTrace v ++ traceOf loop
         ++ [Emit (Done (sentCount s) (skippedCount s) (failedCount s))]
       /\ s = stateOf loop /\ c = Normal tt
       /\ runResponse (handle v w r)
          = {| status := 200; body := SendingBody (length ns) |}.
Proof.
  intros Hjob.
  destruct (handle_cases v w r) as [(Hnone & _)|(ns & Hreach & Hns & _ & H)];
    [congruence|].
  cbv zeta in H. rewrite H in Hjob |- *. simpl in *. injection Hjob as <- <-.
  exists ns. split; [done|]. split.
  { destruct Hreach as (_ & ns' & Hns' & Hne). congruence. }
  destruct (dispatch_run v (jobOf v r ns) (script w) (initialState w))
    as (-> & -> & ->).
  done.
Qed.

Lemma emitted_guard v t : emitted (guardTrace v ++ t) = emitted t.
Proof. by destruct v. Qed.
Lemma delays_guard v t : delays (guardTrace v ++ t) = delays t.
Proof. by destruct v. Qed.
Lemma sends_guard v t : sends (guardTrace v ++ t) = sends t.
Proof. by destruct v. Qed.
Lemma regChecks_guard v t : regChecks (guardTrace v ++ t) = regChecks t.
Proof. by destruct v. Qed.
Lemma contents_guard v t : contents (guardTrace v ++ t) = contents t.
Proof. by destruct v. Qed.
Lemma fsCalls_guard v t : fsCalls (guardTrace v ++ t) = fsCalls t.
Proof. by destruct v. Qed.

(** X7. A request that is not answered with 200 starts no job, and nothing
    is done for it beyond the look at the readiness signal: no call of the
    client, no file, no event, no pause.  Its status is 400 or 500. *)
Theorem rejected_request_does_nothing (v : variant) (w : world) (r : request) :
  (status (runResponse (handle v w r)) <> 200 <-> runJob (handle v w r) = None)
  /\ (runJob (handle v w r) = None ->
      runTrace (handle v w r) = guardTrace v
      /\ (status (runResponse (handle v w r)) = 400
          \/ status (runResponse (handle v w r)) = 500)).
Proof.
  assert (forall code error,
             code = 400 \/ code = 500 ->
             let x := reject code error (guardTrace v) in
             (status (runResponse x) <> 200 <-> runJob x = None)
             /\ (runJob x = None ->
                 runTrace x = guardTrace v
                 /\ (status (runResponse x) = 400 \/ status (runResponse x) = 500)))
    as Hreject.
  { intros code error Hcode. simpl. split; [split; [done|lia]|done]. }
  unfold handle. fold (guardTrace v).
  destruct (match v with Guarded => negb (clientReady w) | Simple => false end);
    [apply Hreject; auto|].
  destruct (collectNumbers r) as [ns|]; [|apply Hreject; auto].
  destruct (length ns =? 0)%nat; [apply Hreject; auto|].
  destruct (payloadMissing _ _); [apply Hreject; auto|].
  destruct (dispatch _ _ _ _) as [[? ?] ?]. simpl. split; [split|]; done.
Qed.

Lemma normalizeNumbers_nil l :
  normalizeNumbers l = []
  <-> forall entry, entry ∈ l -> (length (Js.stripNonDigits entry) < 10)%nat.
Proof.
  split.
  - intros Hnil entry Hin.
    destruct (Nat.leb_spec 10 (length (Js.stripNonDigits entry))) as [Hlen|]; [|done].
    assert (addCountryCode (Js.stripNonDigits entry) ∈ normalizeNumbers l) as H.
    { apply normalizeNumbers_elem. exists entry. split; [done|]. unfold entryId.
      by destruct (Nat.leb_spec 10 (length (Js.stripNonDigits entry))); [|lia]. }
    rewrite Hnil in H. by apply elem_of_nil in H.
  - intros H. apply elem_of_nil_inv. intros id (entry & Hin & Hid)%normalizeNumbers_elem.
    specialize (H entry Hin). unfold entryId in Hid.
    by destruct (Nat.leb_spec 10 (length (Js.stripNonDigits entry))); [lia|].
Qed.

(** X8. "No valid numbers found." is the answer exactly when the request got
    past the readiness guard, the sheet was read, and no entry of the text
    area or the sheet has ten digits; nothing is started then. *)
Theorem no_valid_numbers (v : variant) (w : world) (r : request) :
  runResponse (handle v w r) = noValidNumbers
  <-> (v = Guarded -> clientReady w = true)
      /\ (forall e, filesExcel r <> Some (Throws e))
      /\ (forall entry, entry ∈ requestEntries r ->
                        (length (Js.stripNonDigits entry) < 10)%nat).
Proof.
  rewrite <- normalizeNumbers_nil. unfold handle.
  destruct (match v with Guarded => negb (clientReady w) | Simple => false end) eqn:G.
  { split; [discriminate|]. intros (Hready & _). destruct v; [|done].
    rewrite Hready in G; done. }
  assert (v = Guarded -> clientReady w = true) as Hready.
  { intros ->. by destruct (clientReady w). }
  destruct (collectNumbers r) as [ns|e] eqn:C.
  2:{ split; [discriminate|]. intros (_ & Hex & _). unfold collectNumbers in C.
      destruct (filesExcel r) as [[|e']|]; try done. by destruct (Hex e'). }
  assert (forall e, filesExcel r <> Some (Throws e)) as Hex.
  { intros e He. unfold collectNumbers in C. by rewrite He in C. }
  rewrite <- (collectNumbers_entries r ns C).
  destruct ns as [|n ns]; simpl; [done|].
  destruct (payloadMissing _ _); [split; [discriminate|by intros (_ & _ & ?)]|].
  destruct (dispatch _ _ _ _) as [[? ?] ?]. split; [discriminate|by intros (_ & _ & ?)].
Qed.

Lemma chatIdOf_normalized rest :
  chatIdOf (lit "+91" ++ rest) = lit "91" ++ rest ++ lit "@c.us".
Proof. reflexivity. Qed.

(** X9. Whatever the collaborators answer, a started job ends normally: no
    exception leaves the asynchronous function.  It has then checked the
    registration of every recipient exactly once, in the order of the list,
    under pairwise distinct chat ids made of the digits of the id and
    "@c.us", and their number is the total of the response. *)
Theorem started_job_checks_every_recipient_once
    (v : variant) (w : world) (r : request) (s : state) (c : completion unit) :
  runJob (handle v w r) = Some (s, c) ->
  c = Normal tt
  /\ regChecks (runTrace (handle v w r))
     = chatIdOf <$> normalizeNumbers (requestEntries r)
  /\ NoDup (regChecks (runTrace (handle v w r)))
  /\ Forall (fun chatId => exists digits,
                 chatId = digits ++ lit "@c.us"
                 /\ forallb Js.isDigit digits = true)
       (regChecks (runTrace (handle v w r)))
  /\ body (runResponse (handle v w r))
     = SendingBody (length (regChecks (runTrace (handle v w r)))).
Proof.
  intros (ns & Hns & _ & Ht & _ & -> & Hresp)%handle_started.
  apply collectNumbers_entries in Hns as Hentries.
  destruct (dispatch_summary v (jobOf v r ns) (script w) (initialState w))
    as (_ & _ & Hreg & _).
  destruct (dispatch_run v (jobOf v r ns) (script w) (initialState w))
    as (Hd & Hs & _).
  assert (regChecks (runTrace (handle v w r)) = chatIdOf <$> ns) as Hchecks.
  { cbv zeta in Ht. rewrite Ht, regChecks_guard. rewrite Hd in Hreg.
    rewrite regChecks_app in Hreg |- *. exact Hreg. }
  split; [done|]. rewrite Hchecks, Hresp, length_fmap, <- Hentries.
  split; [done|]. split; [|split; [|done]].
  - apply NoDup_fmap_2_strong; [|rewrite Hentries; apply uniq_NoDup].
    intros x y Hx Hy Heq. rewrite Hentries in Hx, Hy.
    apply normalized_id_shape in Hx as (rx & -> & _).
    apply normalized_id_shape in Hy as (ry & -> & _).
    rewrite !chatIdOf_normalized in Heq. apply app_inv_head in Heq.
    apply app_inv_tail in Heq. by subst.
  - apply Forall_fmap, Forall_forall. intros id Hid. rewrite Hentries in Hid.
    apply normalized_id_shape in Hid as (rest & -> & Hd' & _).
    exists (lit "91" ++ rest). split; [by rewrite chatIdOf_normalized, <- app_assoc|].
    by rewrite forallb_app, Hd'.
Qed.

(** X10. In a job, [sendMessage] is called at most once per recipient, in
    the order of the recipients, and every call carries the same text: the
    message of the request, with the footer in the third version. *)
Theorem one_send_per_recipient_same_text
    (v : variant) (w : world) (r : request) (s : state) (c : completion unit) :
  runJob (handle v w r) = Some (s, c) ->
  sends (runTrace (handle v w r)) `sublist_of` regChecks (runTrace (handle v w r))
  /\ NoDup (sends (runTrace (handle v w r)))
  /\ Forall (fun x => contentText x = composeMessage v r)
       (contents (runTrace (handle v w r))).
Proof.
  intros Hjob.
  destruct (started_job_checks_every_recipient_once v w r s c Hjob)
    as (_ & Hreg & Hnd & _).
  apply handle_started in Hjob as (ns & Hns & _ & Ht & _).
  apply collectNumbers_entries in Hns. rewrite <- Hns in Hreg. cbv zeta in Ht.
  destruct (forLoop_sends v (jobOf v r ns) (script w) ns 0 (initialState w))
    as (Hsub & Hsame).
  assert (sends (runTrace (handle v w r)) `sublist_of` regChecks (runTrace (handle v w r)))
    as H.
  { rewrite Hreg, Ht, sends_guard, sends_app. simpl. by rewrite app_nil_r. }
  split; [done|]. split; [by eapply sublist_NoDup|].
  rewrite Ht, contents_guard, contents_app. simpl. by rewrite app_nil_r.
Qed.

(** X11. The summary agrees with the events before it: its three counters
    are the numbers of sent, skip and failed events the job has emitted. *)
Theorem summary_counts_the_events
    (v : variant) (w : world) (r : request) (s : state) (c : completion unit) :
  runJob (handle v w r) = Some (s, c) ->
  let es := emitted (runTrace (handle v w r)) in
  sentCount s = countWhere isSent es
  /\ skippedCount s = countWhere isSkipped es
  /\ failedCount s = countWhere isFailed es.
Proof.
  intros (ns & _ & _ & Ht & -> & _)%handle_started. cbv zeta in Ht |- *.
  rewrite Ht, emitted_guard, emitted_app, !countWhere_app.
  destruct (forLoop_tally v (jobOf v r ns) (script w) ns 0 (initialState w))
    as (H1 & H2 & H3 & _).
  cbv zeta in H1, H2, H3. rewrite H1, H2, H3. unfold countWhere. simpl. lia.
Qed.

(** X12. A job pauses once for every recipient it counts as sent or failed
    and for no other, each time for the effective delay: its pauses add up
    to (sent + failed) times that delay. *)
Theorem job_pauses_for_sent_and_failed
    (v : variant) (w : world) (r : request) (s : state) (c : completion unit) :
  runJob (handle v w r) = Some (s, c) ->
  delays (runTrace (handle v w r))
  = replicate (sentCount s + failedCount s) (effectiveDelay (bodyDelay r)).
Proof.
  intros (ns & _ & _ & Ht & -> & _)%handle_started. cbv zeta in Ht |- *.
  rewrite Ht, delays_guard, delays_app. simpl. rewrite app_nil_r.
  destruct (forLoop_tally v (jobOf v r ns) (script w) ns 0 (initialState w))
    as (H1 & _ & H3 & H4).
  cbv zeta in H1, H3, H4. symmetry. apply replicate_as_Forall. split.
  - rewrite H4, H1, H3. simpl. lia.
  - eapply Forall_impl; [apply (forLoop_delays v (jobOf v r ns) (script w))|].
    simpl. by intros ms ->.
Qed.

(** X13. The progress shown by the events is right: a sent or failed event
    carries the position of its recipient in the list, counted from 1, over
    the total of the response; a skip event names a recipient of the list. *)
Theorem events_carry_position_and_total
    (v : variant) (w : world) (r : request) (s : state) (c : completion unit) :
  runJob (handle v w r) = Some (s, c) ->
  Forall (indexed (normalizeNumbers (requestEntries r)))
    (emitted (runTrace (handle v w r))).
Proof.
  intros (ns & Hns & _ & Ht & _)%handle_started. cbv zeta in Ht.
  apply collectNumbers_entries in Hns as <-.
  rewrite Ht, emitted_guard, emitted_app. apply Forall_app. split.
  - apply (forLoop_indexed v (jobOf v r ns) (script w) [] ns). done.
  - by repeat constructor.
Qed.

(** X14. A job leaves the files as they were, but for the scratch file of
    the attached media in the first two versions: no other path is given to
    [mv], [readFileSync] or [unlinkSync], and no other file appears or goes.
    Without media, and in the third version, no file is touched at all. *)
Theorem job_touches_only_the_scratch_file
    (v : variant) (w : world) (r : request) (s : state) (c : completion unit) :
  runJob (handle v w r) = Some (s, c) ->
  match v, filesMedia r with
  | Guarded, Some m =>
      Forall (fun p => p = uploadPathOf m) (fsCalls (runTrace (handle v w r)))
      /\ forall p, p <> uploadPathOf m -> p ∈ files s <-> p ∈ disk w
  | _, _ => fsCalls (runTrace (handle v w r)) = [] /\ files s = disk w
  end.
Proof.
  intros (ns & _ & _ & Ht & -> & _)%handle_started. cbv zeta in Ht |- *.
  rewrite Ht, fsCalls_guard, fsCalls_app. simpl. rewrite app_nil_r.
  apply (forLoop_frame v (jobOf v r ns) (script w) ns 0 (initialState w)).
Qed.

(** ** Failures and skips inside the loop *)

Lemma forLoop_trace_all v j script (P : list action -> Prop) :
  P [] ->
  (forall t1 t2, P t1 -> P t2 -> P (t1 ++ t2)) ->
  (forall i number s, P (traceOf (iteration v j script i number s))) ->
  forall ns i s, P (traceOf (forLoop (iteration v j script) i ns s)).
Proof.
  intros Hnil Happ Hiter. induction ns as [|number rest IH]; intros i s; [done|].
  destruct (forLoop_iteration_step v j script i number rest s) as (-> & _). auto.
Qed.

Lemma iteration_rejected_media j script i number s m :
  mediaFile j = Some m ->
  invalidFileType m = true \/ fileTooBig m = true ->
  let t := traceOf (iteration Guarded j script i number s) in
  sends t = [] /\ fsCalls t = [] /\ countWhere isSent (emitted t) = 0.
Proof.
  intros Hm Hbad. run_iteration. unfold sends, fsCalls, emitted, countWhere.
  rewrite Hm. destruct (isRegisteredUser (script i)) as [[]|]; simpl; [|done..].
  destruct (invalidFileType m); simpl; [done|].
  destruct Hbad as [Hf|Hb]; [done|by rewrite Hb].
Qed.

(** X15. In the first two versions a media that is not an image or a video,
    or is over 16 MiB, stops every send of the job: the registration of each
    recipient is still checked, but [sendMessage] is never called, no
    scratch file is written and no recipient is counted as sent. *)
Theorem rejected_media_sends_nothing
    (w : world) (r : request) (m : MediaFile) (s : state) (c : completion unit) :
  filesMedia r = Some m ->
  invalidFileType m = true \/ fileTooBig m = true ->
  runJob (handle Guarded w r) = Some (s, c) ->
  sends (runTrace (handle Guarded w r)) = []
  /\ fsCalls (runTrace (handle Guarded w r)) = []
  /\ sentCount s = 0
  /\ regChecks (runTrace (handle Guarded w r))
     = chatIdOf <$> normalizeNumbers (requestEntries r).
Proof.
  intros Hm Hbad Hjob.
  destruct (summary_counts_the_events Guarded w r s c Hjob) as (Hsent & _).
  destruct (started_job_checks_every_recipient_once Guarded w r s c Hjob)
    as (_ & Hreg & _).
  apply handle_started in Hjob as (ns & _ & _ & Ht & _). cbv zeta in Ht, Hsent.
  pose proof (forLoop_trace_all Guarded (jobOf Guarded r ns) (script w)
                (fun t => sends t = [] /\ fsCalls t = []
                          /\ countWhere isSent (emitted t) = 0)) as H.
  destruct (H (conj eq_refl (conj eq_refl eq_refl))) with (ns := ns) (i := 0)
    (s := initialState w) as (H1 & H2 & H3).
  - intros t1 t2 (A1 & A2 & A3) (B1 & B2 & B3).
    by rewrite sends_app, fsCalls_app, emitted_app, countWhere_app,
      A1, A2, A3, B1, B2, B3.
  - intros i number s0. by apply (iteration_rejected_media _ _ _ _ _ m).
  - rewrite Ht in Hreg. rewrite Hsent, Ht. simpl in Hreg |- *.
    rewrite sends_app, fsCalls_app, emitted_app, countWhere_app, H1, H2, H3.
    by rewrite Hreg.
Qed.

(** X16. When the removal of the scratch file throws after the send has gone
    out, the recipient is counted and reported as failed although the
    message was sent, and the file stays. *)
Theorem sent_but_counted_failed_when_unlink_throws
    (j : job) (script : nat -> answers) (i : nat) (number : jsstring)
    (s : state) (m : MediaFile) (e : jsstring) :
  mediaFile j = Some m ->
  reachesSend Guarded j (script i) ->
  sendMessage (script i) = Returns tt ->
  unlinkSync (script i) = Throws e ->
  let r := iteration Guarded j script i number s in
  sends (traceOf r) = [chatIdOf number]
  /\ emitted (traceOf r) = [Failed (i + 1) (length (numbers j)) number None]
  /\ counters (stateOf r) = (sentCount s, skippedCount s, S (failedCount s))
  /\ uploadPathOf m ∈ files (stateOf r).
Proof.
  intros Hm (Hreg & Hreach) Hsend Hunlink. cbv zeta.
  simpl in Hreach. rewrite Hm in Hreach.
  destruct Hreach as (Hty & Hsz & Hmv & b & Hread).
  run_iteration. rewrite Hreg, Hm. simpl. rewrite Hty, Hsz, Hmv, Hread. simpl.
  rewrite Hsend, Hunlink. simpl. repeat split. set_solver.
Qed.

(** X17. When a step before the send throws (the registration check, or the
    writing or reading of the scratch file), nothing is sent, the recipient
    is counted and reported as failed, not skipped, and the pause is taken
    as after a send. *)
Theorem failure_before_the_send
    (v : variant) (j : job) (script : nat -> answers) (i : nat)
    (number : jsstring) (s : state) :
  (exists e, isRegisteredUser (script i) = Throws e)
  \/ (v = Guarded /\ isRegisteredUser (script i) = Returns true
      /\ (exists m, mediaFile j = Some m
                    /\ invalidFileType m = false /\ fileTooBig m = false)
      /\ ((exists e, mv (script i) = Throws e)
          \/ (mv (script i) = Returns tt
              /\ exists e, readFileSync (script i) = Throws e))) ->
  let r := iteration v j script i number s in
  sends (traceOf r) = []
  /\ (exists detail,
         emitted (traceOf r) = [Failed (i + 1) (length (numbers j)) number detail])
  /\ delays (traceOf r) = [msgDelay j]
  /\ completionOf r = Normal tt
  /\ counters (stateOf r) = (sentCount s, skippedCount s, S (failedCount s)).
Proof.
  intros H. cbv zeta. run_iteration. unfold sends, emitted, delays.
  destruct H as [[e He]|(-> & Hreg & (m & Hm & Hty & Hsz) & H)].
  - rewrite He. simpl. destruct v; repeat split; eauto.
  - rewrite Hreg. run_iteration. rewrite Hm. simpl. rewrite Hty, Hsz. simpl.
    destruct H as [[e He]|[Hmv [e He]]].
    + rewrite He. simpl. repeat split; eauto.
    + rewrite Hmv, He. simpl. repeat split; eauto.
Qed.

(** ** Strings again *)

Lemma takeWhile_dropWhile p s : Js.takeWhile p s ++ Js.dropWhile p s = s.
Proof.
  induction s as [|c s IH]; simpl; [done|]. destruct (p c); simpl; [|done].
  by rewrite IH.
Qed.

Lemma takeWhile_all p s : forallb p (Js.takeWhile p s) = true.
Proof.
  induction s as [|c s IH]; simpl; [done|]. destruct (p c) eqn:E; simpl; [|done].
  by rewrite E.
Qed.

(** X18. [trim] takes white space off both ends and nothing else: the string
    is white space, then the trimmed string, then white space, and the
    trimmed string neither starts nor ends with white space. *)
Theorem trim_spec (s : jsstring) :
  exists before after,
    s = before ++ Js.trim s ++ after
    /\ forallb Js.isWhiteSpace before = true
    /\ forallb Js.isWhiteSpace after = true
    /\ match head (Js.trim s) with
       | Some c => Js.isWhiteSpace c = false
       | None => Js.trim s = []
       end
    /\ match last (Js.trim s) with
       | Some c => Js.isWhiteSpace c = false
       | None => Js.trim s = []
       end.
Proof.
  unfold Js.trim.
  set (d := Js.dropWhile Js.isWhiteSpace s).
  set (e := Js.dropWhile Js.isWhiteSpace (rev d)).
  exists (Js.takeWhile Js.isWhiteSpace s),
    (rev (Js.takeWhile Js.isWhiteSpace (rev d))).
  assert (d = rev e ++ rev (Js.takeWhile Js.isWhiteSpace (rev d))) as Hd.
  { rewrite <- rev_app_distr. unfold e. rewrite takeWhile_dropWhile.
    by rewrite rev_involutive. }
  split; [|split; [|split; [|split]]].
  - rewrite <- Hd. symmetry. apply takeWhile_dropWhile.
  - apply takeWhile_all.
  - rewrite forallb_rev. apply takeWhile_all.
  - destruct (rev e) as [|c t] eqn:E; simpl; [done|].
    simpl in Hd. unfold d in Hd. by apply dropWhile_head in Hd.
  - destruct e as [|c t] eqn:E; simpl; [done|].
    rewrite last_snoc. unfold e in E. by apply dropWhile_head in E.
Qed.

(** ** The gates of the handler *)

(** X19. In the first two versions "WhatsApp not ready" is the answer
    exactly when the readiness signal is not set, whatever else the request
    holds (no numbers, an unreadable sheet, no message); the third version
    never gives it. *)
Theorem readiness_guard_comes_first (v : variant) (w : world) (r : request) :
  runResponse (handle v w r) = notReady
  <-> v = Guarded /\ clientReady w = false.
Proof.
  unfold handle. destruct v.
  - destruct (clientReady w); simpl; [|by split].
    split; [|by intros [_ ?]].
    destruct (collectNumbers r) as [ns|]; [|discriminate].
    destruct (length ns =? 0)%nat; [discriminate|].
    destruct (payloadMissing _ _); [discriminate|].
    by destruct (dispatch _ _ _ _) as [[? ?] ?].
  - split; [|by intros [? _]].
    destruct (collectNumbers r) as [ns|]; [|discriminate].
    destruct (length ns =? 0)%nat; [discriminate|].
    destruct (payloadMissing _ _); [discriminate|].
    by destruct (dispatch _ _ _ _) as [[? ?] ?].
Qed.

(** X20. The third version never answers "Message or media is required.":
    the footer is appended before the check, so the message is never blank
    and a request with recipients always starts a job, with the footer as
    the whole text when no message was given. *)
Theorem simple_never_asks_for_message (w : world) (r : request) :
  runResponse (handle Simple w r) <> messageOrMediaRequired
  /\ (forall ns, collectNumbers r = Returns ns -> ns <> [] ->
                 runResponse (handle Simple w r)
                 = {| status := 200; body := SendingBody (length ns) |})
  /\ (bodyMessage r = None -> composeMessage Simple r = footer).
Proof.
  split; [|split; [|by unfold composeMessage; intros ->]].
  - intros H. apply (handle_payload_error Simple w r) in H as [_ H].
    by rewrite simple_message_never_blank in H.
  - intros ns Hns Hne. unfold handle. rewrite Hns.
    destruct ns as [|n ns]; [done|]. cbn [length Nat.eqb].
    rewrite simple_message_never_blank.
    by destruct (dispatch _ _ _ _) as [[? ?] ?].
Qed.

(** ** Worked instances of the further properties *)

Lemma normalized_id_shape_witness :
  exists rest, lit "+913456789012" = lit "+91" ++ rest
               /\ forallb Js.isDigit rest = true /\ 8 <= length rest.
Proof.
  apply (normalized_id_shape [lit "00191123456789012"]).
  apply list_elem_of_In. simpl. left. reflexivity.
Defined.

Lemma started_job_checks_every_recipient_once_witness :
  regChecks (runTrace (handle Guarded (worldOf true mixedScript) threeRequest))
  = chatIdOf <$> normalizeNumbers (requestEntries threeRequest).
Proof.
  apply (started_job_checks_every_recipient_once
           Guarded (worldOf true mixedScript) threeRequest _ _ eq_refl).
Defined.

Lemma one_send_per_recipient_same_text_witness :
  NoDup (sends (runTrace (handle Guarded (worldOf true mixedScript) threeRequest))).
Proof.
  apply (one_send_per_recipient_same_text
           Guarded (worldOf true mixedScript) threeRequest _ _ eq_refl).
Defined.

Lemma summary_counts_the_events_witness :
  let es := emitted (runTrace (handle Guarded (worldOf true mixedScript) threeRequest)) in
  1 = countWhere isSent es /\ 1 = countWhere isSkipped es /\ 1 = countWhere isFailed es.
Proof.
  apply (summary_counts_the_events
           Guarded (worldOf true mixedScript) threeRequest
           {| sentCount := 1; skippedCount := 1; failedCount := 1; files := ∅ |}
           (Normal tt) eq_refl).
Defined.

Lemma job_pauses_for_sent_and_failed_witness :
  delays (runTrace (handle Guarded (worldOf true mixedScript) threeRequest))
  = replicate 2 2000%Z.
Proof.
  apply (job_pauses_for_sent_and_failed
           Guarded (worldOf true mixedScript) threeRequest
           {| sentCount := 1; skippedCount := 1; failedCount := 1; files := ∅ |}
           (Normal tt) eq_refl).
Defined.

Lemma events_carry_position_and_total_witness :
  Forall (indexed (normalizeNumbers (requestEntries threeRequest)))
    (emitted (runTrace (handle Guarded (worldOf true mixedScript) threeRequest))).
Proof.
  apply (events_carry_position_and_total
           Guarded (worldOf true mixedScript) threeRequest _ _ eq_refl).
Defined.

Lemma job_touches_only_the_scratch_file_witness :
  Forall (fun p => p = uploadPathOf photo)
    (fsCalls (runTrace (handle Guarded (worldOf true (fun _ => answersOk))
                          (mediaRequest "9876543210" photo)))).
Proof.
  apply (job_touches_only_the_scratch_file
           Guarded (worldOf true (fun _ => answersOk))
           (mediaRequest "9876543210" photo) _ _ eq_refl).
Defined.

Lemma rejected_media_sends_nothing_witness :
  sends (runTrace (handle Guarded (worldOf true (fun _ => answersOk))
                     (mediaRequest "9876543210" bigPdf))) = [].
Proof.
  apply (rejected_media_sends_nothing
           (worldOf true (fun _ => answersOk)) (mediaRequest "9876543210" bigPdf)
           bigPdf _ _ eq_refl (or_introl eq_refl) eq_refl).
Defined.

Lemma sent_but_counted_failed_when_unlink_throws_witness :
  let r := iteration Guarded (mediaJob photo [alice]) (fun _ => answersUnlinkThrows)
             0 alice freshState in
  sends (traceOf r) = [chatIdOf alice]
  /\ emitted (traceOf r) = [Failed 1 1 alice None]
  /\ counters (stateOf r) = (0, 0, 1)
  /\ uploadPathOf photo ∈ files (stateOf r).
Proof.
  apply (sent_but_counted_failed_when_unlink_throws
           (mediaJob photo [alice]) (fun _ => answersUnlinkThrows) 0 alice freshState
           photo (lit "EPERM: operation not permitted")).
  - reflexivity.
  - split; [reflexivity|]. simpl. repeat split. eexists. reflexivity.
  - reflexivity.
  - reflexivity.
Defined.

Lemma failure_before_the_send_witness :
  let r := iteration Simple (textJob [alice]) (fun _ => answersNotReady)
             0 alice freshState in
  sends (traceOf r) = []
  /\ (exists detail, emitted (traceOf r) = [Failed 1 1 alice detail])
  /\ delays (traceOf r) = [2000%Z]
  /\ completionOf r = Normal tt
  /\ counters (stateOf r) = (0, 0, 1).
Proof.
  apply (failure_before_the_send
           Simple (textJob [alice]) (fun _ => answersNotReady) 0 alice freshState).
  left. eexists. reflexivity.
Defined.
